(** * Learner telemetry pipeline: classifier, event store, aggregator, buffer

    A shallow embedding of
      - backend-tutor/src/services/activityEventService.ts
        (classifyEvent, buildReason, recordActivityEvents,
         getLearnerHistory, deriveStatusFromEvents),
      - frontend-tutor/src/utils/telemetry.ts
        (flushBuffer, scheduleFlush, updateTelemetryAccessToken,
         recordTelemetryEvent),
      - frontend-tutor/src/pages/TutorDashboardPage.tsx
        (sortedHistoryEvents),
    and the properties the specification states about them. *)

From Stdlib Require Import ZArith List String Ascii Bool Lia.
From Stdlib Require Import Sorting.Sorted Sorting.Permutation.
Import ListNotations.

Set Warnings "-register-all".
Local Open Scope string_scope.
Local Open Scope Z_scope.

(* ===================================================================== *)
(** * JavaScript strings *)
(* ===================================================================== *)

(** A string is a sequence of code units below 256 (the event types and
    reasons of this system are ASCII identifiers and short sentences). *)
Module JsString.

(** [String.prototype.toLowerCase] on one code unit: A-Z and the Latin-1
    capitals (U+00C0..U+00DE without the multiplication sign U+00D7) move
    up by 32, every other code unit below 256 is left as it is. *)
Definition lower_code_unit (c : ascii) : ascii :=
  let n := N_of_ascii c in
  if ((65 <=? n) && (n <=? 90))%N then ascii_of_N (n + 32)
  else if ((192 <=? n) && (n <=? 222) && negb (n =? 215))%N
       then ascii_of_N (n + 32)
       else c.

Fixpoint toLowerCase (s : string) : string :=
  match s with
  | EmptyString => EmptyString
  | String c rest => String (lower_code_unit c) (toLowerCase rest)
  end.

(** [s.startsWith(p)] *)
Definition startsWith (s p : string) : bool := String.prefix p s.

(** White space as [String.prototype.trim] sees it, below 256: TAB, LF, VT,
    FF, CR, SPACE and NO-BREAK SPACE. *)
Definition is_white_space (c : ascii) : bool :=
  let n := N_of_ascii c in
  ((9 <=? n) && (n <=? 13) || (n =? 32) || (n =? 160))%N.

Fixpoint trimStart (s : string) : string :=
  match s with
  | EmptyString => EmptyString
  | String c rest => if is_white_space c then trimStart rest else s
  end.

Fixpoint trimEnd (s : string) : string :=
  match s with
  | EmptyString => EmptyString
  | String c rest =>
      match trimEnd rest with
      | EmptyString => if is_white_space c then EmptyString
                       else String c EmptyString
      | kept => String c kept
      end
  end.

Definition trim (s : string) : string := trimEnd (trimStart s).

(** Truthiness of a string value: every string but the empty one. *)
Definition truthy (s : string) : bool :=
  match s with EmptyString => false | String _ _ => true end.

(** [a < b] on strings: code units compared left to right. *)
Definition lt (a b : string) : bool := String.ltb a b.

End JsString.
Import JsString.

(* ===================================================================== *)
(** * JSON payloads *)
(* ===================================================================== *)

(** [Prisma.JsonValue]. The classifier never looks into a number, so a
    number is kept as an integer. An object is its list of own fields,
    under distinct keys. *)
Inductive JsonValue : Type :=
| JsonNull
| JsonBool (b : bool)
| JsonNumber (n : Z)
| JsonString (s : string)
| JsonArray (items : list JsonValue)
| JsonObject (fields : list (string * JsonValue)).

(** [o[key]] on the fields of an object; [None] is [undefined]. *)
Fixpoint get_field (fields : list (string * JsonValue)) (key : string)
  : option JsonValue :=
  match fields with
  | [] => None
  | (k, v) :: rest => if String.eqb k key then Some v else get_field rest key
  end.

(** [typeof payload === "object" && payload && key in payload]: the payload
    is given, is neither a primitive nor null, and has the key. An array has
    its indices and [length] only, so no key of the kind used here. *)
Definition object_has_key (payload : option JsonValue) (key : string) : bool :=
  match payload with
  | Some (JsonObject fields) =>
      match get_field fields key with Some _ => true | None => false end
  | _ => false
  end.

(** [(payload as Record<string, unknown>)[key]] *)
Definition object_get (payload : option JsonValue) (key : string)
  : option JsonValue :=
  match payload with
  | Some (JsonObject fields) => get_field fields key
  | _ => None
  end.

(* ===================================================================== *)
(** * The classifier (activityEventService.ts, lines 27-66) *)
(* ===================================================================== *)

Definition VIDEO_EVENT_PREFIXES : list string :=
  ["video.play"; "video.resume"; "video.buffer.end"; "progress.snapshot";
   "persona."; "notes."; "lesson."; "cold_call."; "tutor.response"].

Definition FRICTION_EVENT_PREFIXES : list string :=
  ["quiz.fail"; "quiz.retry"; "tutor.prompt"; "cold_call.star";
   "cold_call.submit"; "tutor.response_received"; "content.friction"].

Definition ATTENTION_EVENT_PREFIXES : list string :=
  ["idle."; "video.pause"; "video.buffer.start"; "lesson.locked_click"].

(** The classifier's result object: each field may be absent. *)
Record Classification : Type := mkClassification {
  derivedStatus : option string;
  statusReason : option string
}.

Definition buildReason (eventType : string) (payload : option JsonValue)
    (fallback : string) : string :=
  let synthesized := fallback ++ " (" ++ eventType ++ ")" in
  if object_has_key payload "reason" then
    match object_get payload "reason" with
    | Some (JsonString possible) =>
        if truthy (trim possible) then possible else synthesized
    | _ => synthesized
    end
  else synthesized.

(** [PREFIXES.some((prefix) => normalized.startsWith(prefix))] *)
Definition some_prefix (prefixes : list string) (normalized : string) : bool :=
  existsb (fun prefix => startsWith normalized prefix) prefixes.

Definition classifyEvent (eventType : string) (payload : option JsonValue)
  : Classification :=
  let normalized := toLowerCase eventType in
  if some_prefix ATTENTION_EVENT_PREFIXES normalized then
    {| derivedStatus := Some "attention_drift";
       statusReason :=
         Some (buildReason eventType payload "Idle or pause pattern detected") |}
  else if some_prefix FRICTION_EVENT_PREFIXES normalized then
    {| derivedStatus := Some "content_friction";
       statusReason :=
         Some (buildReason eventType payload "Learner signaled friction") |}
  else if some_prefix VIDEO_EVENT_PREFIXES normalized then
    {| derivedStatus := Some "engaged";
       statusReason :=
         Some (buildReason eventType payload "Learner interacting with content") |}
  else {| derivedStatus := None; statusReason := None |}.

(** The fallback phrase of each group, as the classifier pairs them. *)
Definition fallback_phrase (status : string) : string :=
  if String.eqb status "attention_drift" then "Idle or pause pattern detected"
  else if String.eqb status "content_friction" then "Learner signaled friction"
  else "Learner interacting with content".

(* ===================================================================== *)
(** * Arrays *)
(* ===================================================================== *)

(** [Array.prototype.sort(compareFn)]: a stable sort; [compareFn a b <= 0]
    keeps [a] before [b]. Insertion from the right end keeps equal elements
    in their order of arrival. *)
Section ArraySort.
Context {A : Type} (compareFn : A -> A -> Z).

Fixpoint insert_sorted (x : A) (sorted : list A) : list A :=
  match sorted with
  | [] => [x]
  | y :: rest =>
      if compareFn x y <=? 0 then x :: sorted
      else y :: insert_sorted x rest
  end.

Definition sort (items : list A) : list A :=
  fold_right insert_sorted [] items.

(** What the comparator says of two elements that may stay as they are. *)
Definition in_order (a b : A) : Prop := compareFn a b <= 0.
End ArraySort.

(* ===================================================================== *)
(** * The event store (activityEventService.ts, lines 4-25 and 68-173) *)
(* ===================================================================== *)

(** Instants ([Date]) are their [getTime()], milliseconds since the epoch. *)
Definition Date : Type := Z.

Module Input.
(** [TelemetryEventInput]; a field that is [null] or missing is [None]. *)
Record TelemetryEventInput : Type := mk {
  courseId : string;
  moduleNo : option Z;
  topicId : option string;
  eventType : string;
  payload : option JsonValue;
  occurredAt : option Date
}.
End Input.

Module Stored.
(** A row of the table [learner_activity_events]. *)
Record LearnerActivityEvent : Type := mk {
  event_id : string;
  user_id : string;
  course_id : string;
  module_no : option Z;
  topic_id : option string;
  event_type : string;
  payload : JsonValue;
  derived_status : option string;
  status_reason : option string;
  created_at : Date
}.
End Stored.

Module StatusRow.
(** [LearnerStatusRow], what the queries return. *)
Record LearnerStatusRow : Type := mk {
  eventId : string;
  userId : string;
  courseId : string;
  fullName : option string;
  email : option string;
  moduleNo : option Z;
  topicId : option string;
  eventType : string;
  derivedStatus : option string;
  statusReason : option string;
  createdAt : Date
}.

(** [{ ...row, derivedStatus: status }] *)
Definition with_derivedStatus (row : LearnerStatusRow) (status : string)
  : LearnerStatusRow :=
  {| eventId := eventId row; userId := userId row; courseId := courseId row;
     fullName := fullName row; email := email row; moduleNo := moduleNo row;
     topicId := topicId row; eventType := eventType row;
     derivedStatus := Some status; statusReason := statusReason row;
     createdAt := createdAt row |}.
End StatusRow.

(** The server: the table, and how many times the clock has been read. *)
Record Server : Type := mkServer {
  learner_activity_events : list Stored.LearnerActivityEvent;
  clock_reads : nat
}.

Section EventStore.
(** [new_Date n] is what the server's [new Date()] returns the n-th time
    it is evaluated; [default_event_id n] is the primary key the table's
    default gives to the n-th row ever inserted. *)
Variable new_Date : nat -> Date.
Variable default_event_id : nat -> string.

(** The object built for one event inside [events.map], lines 73-86;
    [event_id] is left to the table. The clock is read only when
    [occurredAt] is absent. *)
Definition build_row (userId : string) (event : Input.TelemetryEventInput)
    (reads : nat) : Stored.LearnerActivityEvent * nat :=
  let c := classifyEvent (Input.eventType event) (Input.payload event) in
  let '(created, reads') :=
    match Input.occurredAt event with
    | Some occurred => (occurred, reads)
    | None => (new_Date reads, S reads)
    end in
  ({| Stored.event_id := "";
      Stored.user_id := userId;
      Stored.course_id := Input.courseId event;
      Stored.module_no := Input.moduleNo event;
      Stored.topic_id := Input.topicId event;
      Stored.event_type := Input.eventType event;
      Stored.payload :=
        match Input.payload event with Some p => p | None => JsonNull end;
      Stored.derived_status := derivedStatus c;
      Stored.status_reason := statusReason c;
      Stored.created_at := created |}, reads').

Fixpoint build_rows (userId : string)
    (events : list Input.TelemetryEventInput) (reads : nat)
  : list Stored.LearnerActivityEvent * nat :=
  match events with
  | [] => ([], reads)
  | event :: rest =>
      let '(row, reads1) := build_row userId event reads in
      let '(rows, reads2) := build_rows userId rest reads1 in
      (row :: rows, reads2)
  end.

Definition with_event_id (id : string) (row : Stored.LearnerActivityEvent)
  : Stored.LearnerActivityEvent :=
  {| Stored.event_id := id;
     Stored.user_id := Stored.user_id row;
     Stored.course_id := Stored.course_id row;
     Stored.module_no := Stored.module_no row;
     Stored.topic_id := Stored.topic_id row;
     Stored.event_type := Stored.event_type row;
     Stored.payload := Stored.payload row;
     Stored.derived_status := Stored.derived_status row;
     Stored.status_reason := Stored.status_reason row;
     Stored.created_at := Stored.created_at row |}.

(** [prisma.learnerActivityEvent.createMany({ data })]: the rows are
    appended, each with the next primary key. *)
Fixpoint createMany (data : list Stored.LearnerActivityEvent)
    (table : list Stored.LearnerActivityEvent)
  : list Stored.LearnerActivityEvent :=
  match data with
  | [] => table
  | row :: rest =>
      createMany rest
        (table ++ [with_event_id (default_event_id (List.length table)) row])%list
  end.

Definition recordActivityEvents (userId : string)
    (events : list Input.TelemetryEventInput) (s : Server) : Server :=
  match events with
  | [] => s
  | _ =>
      let '(rows, reads) := build_rows userId events (clock_reads s) in
      {| learner_activity_events := createMany rows (learner_activity_events s);
         clock_reads := reads |}
  end.
(** Where the [createdAt] of the row built for an event comes from: the
    event's [occurredAt], or else one of the clock readings number [from]
    to [to - 1]. *)
Definition createdAt_source (from to : nat)
    (event : Input.TelemetryEventInput) (row : Stored.LearnerActivityEvent)
  : Prop :=
  match Input.occurredAt event with
  | Some occurred => Stored.created_at row = occurred
  | None => exists k, (from <= k < to)%nat
                      /\ Stored.created_at row = new_Date k
  end.

End EventStore.

(** The columns a history query selects, under their aliases. *)
Definition select_history_columns (e : Stored.LearnerActivityEvent)
  : StatusRow.LearnerStatusRow :=
  {| StatusRow.eventId := Stored.event_id e;
     StatusRow.userId := Stored.user_id e;
     StatusRow.courseId := Stored.course_id e;
     StatusRow.fullName := None;
     StatusRow.email := None;
     StatusRow.moduleNo := Stored.module_no e;
     StatusRow.topicId := Stored.topic_id e;
     StatusRow.eventType := Stored.event_type e;
     StatusRow.derivedStatus := Stored.derived_status e;
     StatusRow.statusReason := Stored.status_reason e;
     StatusRow.createdAt := Stored.created_at e |}.

(** The WHERE clause of [getLearnerHistory]; the [before] bound is there
    only when a date is given. *)
Definition history_where (userId courseId : string) (before : option Date)
    (e : Stored.LearnerActivityEvent) : bool :=
  String.eqb (Stored.user_id e) userId
  && String.eqb (Stored.course_id e) courseId
  && match before with
     | Some bound => Stored.created_at e <? bound
     | None => true
     end.

(** [ORDER BY created_at DESC]: the only sort key is [created_at]. The
    database promises nothing about rows with equal keys; they come out in
    the order the scan meets them, here the order of the table. *)
Definition order_by_created_at_desc (rows : list Stored.LearnerActivityEvent)
  : list Stored.LearnerActivityEvent :=
  sort (fun a b => Stored.created_at b - Stored.created_at a) rows.

(** [getLearnerHistory]: [None] is the rejected promise of a negative
    LIMIT. *)
Definition getLearnerHistory (table : list Stored.LearnerActivityEvent)
    (userId courseId : string) (limit : Z) (before : option Date)
  : option (list StatusRow.LearnerStatusRow) :=
  if limit <? 0 then None
  else
    Some (map select_history_columns
            (firstn (Z.to_nat limit)
               (order_by_created_at_desc
                  (filter (history_where userId courseId before) table)))).

(* ===================================================================== *)
(** * The aggregator (activityEventService.ts, lines 194-214) *)
(* ===================================================================== *)

(** [event.derivedStatus === status] *)
Definition has_status (status : string) (event : StatusRow.LearnerStatusRow) : bool :=
  match StatusRow.derivedStatus event with
  | Some d => String.eqb d status
  | None => false
  end.

Definition by_createdAt_desc (a b : StatusRow.LearnerStatusRow) : Z :=
  StatusRow.createdAt b - StatusRow.createdAt a.

Definition deriveStatusFromEvents (events : list StatusRow.LearnerStatusRow)
  : option StatusRow.LearnerStatusRow :=
  match events with
  | [] => None
  | _ =>
      let sorted := sort by_createdAt_desc events in
      let frictionEvent := find (has_status "content_friction") sorted in
      let attentionEvent := find (has_status "attention_drift") sorted in
      let engagedEvent := find (has_status "engaged") sorted in
      let fallback := hd_error sorted in
      match frictionEvent with
      | Some e => Some (StatusRow.with_derivedStatus e "content_friction")
      | None =>
          match attentionEvent with
          | Some e => Some (StatusRow.with_derivedStatus e "attention_drift")
          | None =>
              match engagedEvent with
              | Some e => Some (StatusRow.with_derivedStatus e "engaged")
              | None => fallback
              end
          end
      end
  end.

(** The severity of a row's status, as the specification orders the three
    statuses: [content_friction] above [attention_drift] above [engaged];
    a row with no status, or any other, is below them all. *)
Definition priority (event : StatusRow.LearnerStatusRow) : Z :=
  if has_status "content_friction" event then 3
  else if has_status "attention_drift" event then 2
  else if has_status "engaged" event then 1
  else 0.

(** A row of learner [u-1] in course [c-1], for the examples. *)
Definition example_row (eventId eventType : string) (status : option string)
    (createdAt : Date) : StatusRow.LearnerStatusRow :=
  {| StatusRow.eventId := eventId; StatusRow.userId := "u-1"; StatusRow.courseId := "c-1";
     StatusRow.fullName := None; StatusRow.email := None;
     StatusRow.moduleNo := Some 1; StatusRow.topicId := None;
     StatusRow.eventType := eventType;
     StatusRow.derivedStatus := status;
     StatusRow.statusReason :=
       match status with Some _ => Some eventType | None => None end;
     StatusRow.createdAt := createdAt |}.

(** For the examples: a server clock that stands still at [now], primary
    keys [id-0], [id-1], ..., an input event and a stored row of learner
    [u-1] in course [c-1]. *)
Definition example_clock (now : Date) : nat -> Date := fun _ => now.

Definition example_event_id (n : nat) : string :=
  "id-" ++ String (ascii_of_nat (48 + n)) "".

Definition example_input (eventType : string) (occurredAt : option Date)
  : Input.TelemetryEventInput :=
  {| Input.courseId := "c-1"; Input.moduleNo := None; Input.topicId := None;
     Input.eventType := eventType; Input.payload := None;
     Input.occurredAt := occurredAt |}.

Definition example_stored (event_id event_type : string) (created_at : Date)
  : Stored.LearnerActivityEvent :=
  {| Stored.event_id := event_id; Stored.user_id := "u-1";
     Stored.course_id := "c-1"; Stored.module_no := None;
     Stored.topic_id := None; Stored.event_type := event_type;
     Stored.payload := JsonNull;
     Stored.derived_status := derivedStatus (classifyEvent event_type None);
     Stored.status_reason := statusReason (classifyEvent event_type None);
     Stored.created_at := created_at |}.

Definition empty_server : Server :=
  {| learner_activity_events := []; clock_reads := 0 |}.

(* ===================================================================== *)
(** * The event buffer (frontend-tutor/src/utils/telemetry.ts) *)
(* ===================================================================== *)

Module Telemetry.

Record TelemetryEvent : Type := mkEvent {
  courseId : string;
  moduleNo : option Z;
  topicId : option string;
  eventType : string;
  payload : option (list (string * JsonValue));
  occurredAt : option string
}.

Definition BUFFER_FLUSH_INTERVAL_MS : Z := 4000.
Definition MAX_BUFFER_SIZE : nat := 20.

(** A call [apiRequest("POST", "/api/activity/events", { events }, { headers })]. *)
Record Request : Type := mkRequest {
  events : list TelemetryEvent;
  authorization : string
}.

(** The module's variables [currentToken], [buffer] and [flushTimer] (the
    handle and delay of the pending timeout), then what the module has done
    to the outside: the requests started, oldest first, the number of clock
    readings taken and of timeouts set. *)
Record State : Type := mkState {
  currentToken : option string;
  buffer : list TelemetryEvent;
  flushTimer : option (nat * Z);
  requests : list Request;
  clock_reads : nat;
  timeouts_set : nat
}.

Definition initial : State :=
  {| currentToken := None; buffer := []; flushTimer := None;
     requests := []; clock_reads := 0; timeouts_set := 0 |}.

Section Buffer.
(** [isBrowser] is [typeof window !== "undefined"], fixed when the module is
    loaded; [now_iso n] is the n-th [new Date().toISOString()]. *)
Variable isBrowser : bool.
Variable now_iso : nat -> string.

(** [{ ...event, occurredAt: event.occurredAt ?? new Date().toISOString() }] *)
Definition stamp (event : TelemetryEvent) (reads : nat) : TelemetryEvent * nat :=
  match occurredAt event with
  | Some _ => (event, reads)
  | None =>
      ({| courseId := courseId event; moduleNo := moduleNo event;
          topicId := topicId event; eventType := eventType event;
          payload := payload event; occurredAt := Some (now_iso reads) |},
       S reads)
  end.

Fixpoint stamp_all (batch : list TelemetryEvent) (reads : nat)
  : list TelemetryEvent * nat :=
  match batch with
  | [] => ([], reads)
  | event :: rest =>
      let '(event', reads1) := stamp event reads in
      let '(rest', reads2) := stamp_all rest reads1 in
      (event' :: rest', reads2)
  end.

(** [flushBuffer] up to its [await]: the guard, the swap of the queue and
    the start of the request all happen before control returns to the
    caller. What follows the [await] only logs a warning on failure and
    changes none of the module's variables. *)
Definition flushBuffer (s : State) : State :=
  match currentToken s with
  | None => s
  | Some token =>
      if negb (truthy token) || (List.length (buffer s) =? 0)%nat then s
      else
        let '(body, reads) := stamp_all (buffer s) (clock_reads s) in
        {| currentToken := currentToken s;
           buffer := [];
           flushTimer := flushTimer s;
           requests :=
             (requests s ++
              [{| events := body; authorization := "Bearer " ++ token |}])%list;
           clock_reads := reads;
           timeouts_set := timeouts_set s |}
  end.

(** The callback given to [window.setTimeout]. *)
Definition flush_timer_callback (s : State) : State :=
  flushBuffer
    {| currentToken := currentToken s; buffer := buffer s; flushTimer := None;
       requests := requests s; clock_reads := clock_reads s;
       timeouts_set := timeouts_set s |}.

Definition scheduleFlush (s : State) : State :=
  match flushTimer s with
  | Some _ => s
  | None =>
      if negb isBrowser then s
      else
        {| currentToken := currentToken s; buffer := buffer s;
           flushTimer := Some (S (timeouts_set s), BUFFER_FLUSH_INTERVAL_MS);
           requests := requests s; clock_reads := clock_reads s;
           timeouts_set := S (timeouts_set s) |}
  end.

Definition token_set (token : option string) : bool :=
  match token with Some t => truthy t | None => false end.

Definition updateTelemetryAccessToken (token : option string) (s : State)
  : State :=
  if token_set token then
    {| currentToken := token; buffer := buffer s; flushTimer := flushTimer s;
       requests := requests s; clock_reads := clock_reads s;
       timeouts_set := timeouts_set s |}
  else
    {| currentToken := token; buffer := []; flushTimer := None;
       requests := requests s; clock_reads := clock_reads s;
       timeouts_set := timeouts_set s |}.

Definition push (event : TelemetryEvent) (s : State) : State :=
  {| currentToken := currentToken s; buffer := (buffer s ++ [event])%list;
     flushTimer := flushTimer s; requests := requests s;
     clock_reads := clock_reads s; timeouts_set := timeouts_set s |}.

Definition recordTelemetryEvent (event : TelemetryEvent) (s : State) : State :=
  if negb (token_set (currentToken s)) || negb isBrowser then s
  else
    let s1 := push event s in
    if (MAX_BUFFER_SIZE <=? List.length (buffer s1))%nat then flushBuffer s1
    else scheduleFlush s1.

(** What can happen to the module: a call of one of its two exported
    functions, or the pending timeout firing. *)
Inductive step : State -> State -> Prop :=
| step_token (token : option string) (s : State) :
    step s (updateTelemetryAccessToken token s)
| step_record (event : TelemetryEvent) (s : State) :
    step s (recordTelemetryEvent event s)
| step_timer (s : State) (pending : nat * Z) :
    flushTimer s = Some pending -> step s (flush_timer_callback s).

Inductive reachable : State -> Prop :=
| reachable_initial : reachable initial
| reachable_step (s s' : State) : reachable s -> step s s' -> reachable s'.

(** What holds of the module's variables whatever has happened: events are
    queued only under a token and in a browser, and the queue never stays
    at its maximum size. *)
Definition invariant (s : State) : Prop :=
  (buffer s <> [] -> token_set (currentToken s) = true /\ isBrowser = true)
  /\ (List.length (buffer s) < MAX_BUFFER_SIZE)%nat.

(** One call of [recordTelemetryEvent] per event, in order. *)
Definition record_all (batch : list TelemetryEvent) (s : State) : State :=
  fold_left (fun s event => recordTelemetryEvent event s) batch s.

End Buffer.

(** For the examples: an event without [occurredAt], and a clock. *)
Definition example_event (eventType : string) : TelemetryEvent :=
  {| courseId := "c-1"; moduleNo := Some 2; topicId := None;
     eventType := eventType; payload := None; occurredAt := None |}.

Definition example_now (n : nat) : string := "2026-01-01T00:00:00.000Z".

End Telemetry.

(* ===================================================================== *)
(** * The dashboard's history list (TutorDashboardPage.tsx, lines 74-87
      and 381-392) *)
(* ===================================================================== *)

Module Dashboard.

(** [ActivityLearner]. [createdAt] is an ISO date string on the wire; the
    record keeps the instant [new Date(createdAt).getTime()] it denotes. *)
Record ActivityLearner : Type := mk {
  eventId : option string;
  userId : string;
  courseId : string;
  fullName : option string;
  email : option string;
  moduleNo : option Z;
  topicId : option string;
  topicTitle : option string;
  eventType : string;
  derivedStatus : option string;
  statusReason : option string;
  createdAt : Date
}.

(** The comparator of [sortedHistoryEvents]. An [eventId] that is missing or
    empty is falsy. *)
Definition compare_history (a b : ActivityLearner) : Z :=
  let diff := createdAt b - createdAt a in
  if negb (diff =? 0) then diff
  else
    match eventId a, eventId b with
    | Some ida, Some idb =>
        if truthy ida && truthy idb && negb (String.eqb ida idb)
        then (if JsString.lt ida idb then 1 else -1)
        else 0
    | _, _ => 0
    end.

Definition sortedHistoryEvents (historyEvents : list ActivityLearner)
  : list ActivityLearner :=
  sort compare_history historyEvents.

(** An event the server sent with its primary key. *)
Definition has_event_id (e : ActivityLearner) : Prop :=
  exists id, eventId e = Some id /\ id <> "".

(** The order the specification asks of the history: newest first, and
    among events of one instant the greater [eventId] first. *)
Definition newest_first_then_id_desc (a b : ActivityLearner) : Prop :=
  createdAt b < createdAt a
  \/ (createdAt a = createdAt b
      /\ exists ida idb, eventId a = Some ida /\ eventId b = Some idb
                         /\ JsString.lt ida idb = false).

(** For the examples: an event of the history list. *)
Definition example_event (eventId : string) (createdAt : Date)
  : ActivityLearner :=
  {| eventId := Some eventId; userId := "u-1"; courseId := "c-1";
     fullName := None; email := None; moduleNo := None; topicId := None;
     topicTitle := None; eventType := "video.play";
     derivedStatus := Some "engaged"; statusReason := None;
     createdAt := createdAt |}.

End Dashboard.

(* ===================================================================== *)
(** * The course view (activityEventService.ts, lines 93-142) *)
(* ===================================================================== *)

Module Users.
(** A row of the table [users], as far as the course view reads it. *)
Record User : Type := mk {
  user_id : string;
  full_name : option string;
  email : option string
}.
End Users.

(** The keys of a list, each once, in the order of their first
    occurrence. *)
Fixpoint distinct (keys : list string) : list string :=
  match keys with
  | [] => []
  | k :: rest => k :: filter (fun k' => negb (String.eqb k' k)) (distinct rest)
  end.

(** [WHERE course_id = courseId] *)
Definition in_course (courseId : string)
    (table : list Stored.LearnerActivityEvent)
  : list Stored.LearnerActivityEvent :=
  filter (fun e => String.eqb (Stored.course_id e) courseId) table.

(** One partition of [PARTITION BY user_id]. *)
Definition partition_of (uid : string)
    (rows : list Stored.LearnerActivityEvent)
  : list Stored.LearnerActivityEvent :=
  filter (fun e => String.eqb (Stored.user_id e) uid) rows.

(** [WHERE ranked.rn <= 20] *)
Definition WINDOW_SIZE : nat := 20.

(** The rows of a partition that [ROW_NUMBER() OVER (PARTITION BY user_id
    ORDER BY created_at DESC)] numbers 1 to 20. *)
Definition ranked_window (uid : string)
    (rows : list Stored.LearnerActivityEvent)
  : list Stored.LearnerActivityEvent :=
  firstn WINDOW_SIZE (order_by_created_at_desc (partition_of uid rows)).

(** The subquery [ranked] with the filter on [rn]: partition after
    partition. The database promises no order of the result; the model
    takes the partitions in the order their learners first occur in the
    table. *)
Definition ranked (courseId : string)
    (table : list Stored.LearnerActivityEvent)
  : list Stored.LearnerActivityEvent :=
  flat_map (fun uid => ranked_window uid (in_course courseId table))
    (distinct (map Stored.user_id (in_course courseId table))).

(** The columns the course view selects from a ranked row and the user row
    joined to it, if any. *)
Definition select_status_columns (e : Stored.LearnerActivityEvent)
    (u : option Users.User) : StatusRow.LearnerStatusRow :=
  {| StatusRow.eventId := Stored.event_id e;
     StatusRow.userId := Stored.user_id e;
     StatusRow.courseId := Stored.course_id e;
     StatusRow.fullName := match u with Some u => Users.full_name u | None => None end;
     StatusRow.email := match u with Some u => Users.email u | None => None end;
     StatusRow.moduleNo := Stored.module_no e;
     StatusRow.topicId := Stored.topic_id e;
     StatusRow.eventType := Stored.event_type e;
     StatusRow.derivedStatus := Stored.derived_status e;
     StatusRow.statusReason := Stored.status_reason e;
     StatusRow.createdAt := Stored.created_at e |}.

(** [LEFT JOIN users u ON u.user_id = ranked.user_id]: one row per user row
    that matches, and one row with nulls when none does. *)
Definition left_join_users (users : list Users.User)
    (e : Stored.LearnerActivityEvent) : list StatusRow.LearnerStatusRow :=
  match filter (fun u => String.eqb (Users.user_id u) (Stored.user_id e)) users
  with
  | [] => [select_status_columns e None]
  | matching => map (fun u => select_status_columns e (Some u)) matching
  end.

Definition windowedEvents (users : list Users.User)
    (table : list Stored.LearnerActivityEvent) (courseId : string)
  : list StatusRow.LearnerStatusRow :=
  flat_map (left_join_users users) (ranked courseId table).

(** One turn of the [forEach] that fills the [Map]: the row goes to the end
    of its learner's list; a learner met for the first time gets a new
    entry after the others. *)
Fixpoint group_push (row : StatusRow.LearnerStatusRow)
    (grouped : list (string * list StatusRow.LearnerStatusRow))
  : list (string * list StatusRow.LearnerStatusRow) :=
  match grouped with
  | [] => [(StatusRow.userId row, [row])]
  | (key, list) :: rest =>
      if String.eqb key (StatusRow.userId row) then (key, (list ++ [row])%list) :: rest
      else (key, list) :: group_push row rest
  end.

Definition group_by_userId (rows : list StatusRow.LearnerStatusRow)
  : list (string * list StatusRow.LearnerStatusRow) :=
  fold_left (fun grouped row => group_push row grouped) rows [].

(** [summaries.push(summary)] when there is one. *)
Definition push_summary (events : list StatusRow.LearnerStatusRow)
  : list StatusRow.LearnerStatusRow :=
  match deriveStatusFromEvents events with
  | Some summary => [summary]
  | None => []
  end.

Definition getLatestStatusesForCourse (users : list Users.User)
    (table : list Stored.LearnerActivityEvent) (courseId : string)
  : list StatusRow.LearnerStatusRow :=
  flat_map (fun entry => push_summary (snd entry))
    (group_by_userId (windowedEvents users table courseId)).

(** The window of a learner as the aggregator receives it. *)
Definition learner_window (users : list Users.User)
    (table : list Stored.LearnerActivityEvent) (courseId uid : string)
  : list StatusRow.LearnerStatusRow :=
  flat_map (left_join_users users)
    (ranked_window uid (in_course courseId table)).

(** What [recordActivityEvents] copies from the call and from the event
    into the row it stores, and what it asks of the classifier. *)
Definition row_of_event (userId : string) (event : Input.TelemetryEventInput)
    (row : Stored.LearnerActivityEvent) : Prop :=
  Stored.user_id row = userId
  /\ Stored.course_id row = Input.courseId event
  /\ Stored.module_no row = Input.moduleNo event
  /\ Stored.topic_id row = Input.topicId event
  /\ Stored.event_type row = Input.eventType event
  /\ Stored.payload row
     = match Input.payload event with Some p => p | None => JsonNull end
  /\ Stored.derived_status row
     = derivedStatus (classifyEvent (Input.eventType event) (Input.payload event))
  /\ Stored.status_reason row
     = statusReason (classifyEvent (Input.eventType event) (Input.payload event)).

(** The events of a batch that come without [occurredAt]. *)
Definition without_occurredAt (events : list Input.TelemetryEventInput)
  : list Input.TelemetryEventInput :=
  filter (fun event =>
            match Input.occurredAt event with Some _ => false | None => true end)
    events.

(** The rows of the table that a history query of the learner in the course
    may return. *)
Definition history_candidates (table : list Stored.LearnerActivityEvent)
    (userId courseId : string) (before : option Date)
  : list StatusRow.LearnerStatusRow :=
  map select_history_columns
    (filter (history_where userId courseId before) table).

(* ===================================================================== *)
(** * The event buffer: what is observed of it *)
(* ===================================================================== *)

Module Observed.
Import Telemetry.



(** A request as the module starts them: a batch of 1 to 20 events, each
    with its [occurredAt], under a bearer token that is not empty. *)
Definition well_formed_request (r : Request) : Prop :=
  (1 <= List.length (events r) <= MAX_BUFFER_SIZE)%nat
  /\ Forall (fun event => occurredAt event <> None) (events r)
  /\ exists token, token <> "" /\ authorization r = "Bearer " ++ token.

(** What holds of the timer variable and of the requests in every state the
    module can be in. *)
Definition timer_invariant (isBrowser : bool) (s : State) : Prop :=
  (buffer s <> [] -> flushTimer s <> None)
  /\ (forall pending, flushTimer s = Some pending ->
        pending = (timeouts_set s, BUFFER_FLUSH_INTERVAL_MS)
        /\ token_set (currentToken s) = true /\ isBrowser = true)
  /\ Forall well_formed_request (requests s).

End Observed.

(* ===================================================================== *)
(** * The rule tables of the classifier, one against the other *)
(* ===================================================================== *)

(** The prefixes of the two groups tested first that extend a prefix of the
    engaged group: an event type that starts with one of them matches the
    engaged group too, and is not classified [engaged]. *)
Definition ENGAGED_OVERRIDES : list string :=
  filter (fun prefix => some_prefix VIDEO_EVENT_PREFIXES prefix)
    (ATTENTION_EVENT_PREFIXES ++ FRICTION_EVENT_PREFIXES).

(** Two prefixes that no string can start with at once: neither is a prefix
    of the other. *)
Definition exclusive (p q : string) : bool :=
  negb (String.prefix p q || String.prefix q p).

(* ===================================================================== *)
(** * The dashboard's labels (TutorDashboardPage.tsx, lines 398-453) *)
(* ===================================================================== *)

Module Labels.

Definition EVENT_LABELS : list (string * string) :=
  [("idle.start", "Idle detected");
   ("idle.end", "Attention resumed");
   ("video.play", "Video started");
   ("video.pause", "Video paused");
   ("video.buffer.start", "Video buffering");
   ("video.buffer.end", "Video resumed");
   ("lesson.view", "Lesson viewed");
   ("lesson.locked_click", "Locked lesson clicked");
   ("quiz.fail", "Quiz attempt failed");
   ("quiz.pass", "Quiz passed");
   ("quiz.retry", "Quiz retried");
   ("quiz.progress", "Quiz progress updated");
   ("progress.snapshot", "Progress snapshot");
   ("persona.change", "Persona updated");
   ("notes.saved", "Notes saved");
   ("cold_call.loaded", "Cold-call prompt opened");
   ("cold_call.submit", "Cold-call response submitted");
   ("cold_call.star", "Cold-call star awarded");
   ("cold_call.response_received", "Tutor responded to cold-call");
   ("tutor.prompt", "Tutor prompt sent");
   ("tutor.response_received", "Tutor response received")].

Definition STATUS_REASON_LABELS : list (string * string) :=
  [("no_interaction", "No interaction detected");
   ("tab_hidden", "Browser tab hidden");
   ("tab_visible", "Browser tab visible");
   ("video_play", "Video playing");
   ("video_pause", "Video paused")].

(** The names every object literal inherits from [Object.prototype]; what
    they give is a function or an object, never a string, and is truthy. *)
Definition OBJECT_PROTOTYPE_MEMBERS : list string :=
  ["constructor"; "__defineGetter__"; "__defineSetter__"; "hasOwnProperty";
   "__lookupGetter__"; "__lookupSetter__"; "isPrototypeOf";
   "propertyIsEnumerable"; "toString"; "valueOf"; "__proto__";
   "toLocaleString"].

(** [dictionary[key]] *)
Inductive Member : Type :=
| Own (label : string)
| Inherited
| Missing.

Fixpoint own (dictionary : list (string * string)) (key : string)
  : option string :=
  match dictionary with
  | [] => None
  | (k, label) :: rest => if String.eqb k key then Some label else own rest key
  end.

Definition member (dictionary : list (string * string)) (key : string)
  : Member :=
  match own dictionary key with
  | Some label => Own label
  | None =>
      if existsb (String.eqb key) OBJECT_PROTOTYPE_MEMBERS then Inherited
      else Missing
  end.

(** What [friendlyLabel] returns: a text; or, for a name inherited from
    [Object.prototype], that member, which is no text; or a text with a
    code unit above 255, which the strings of this development do not
    hold. *)
Inductive Label : Type :=
| Text (s : string)
| NotText
| OutOfAlphabet.

(** [regex.test(s)] for a regex that is one character class. *)
Fixpoint has_code_unit (class : ascii -> bool) (s : string) : bool :=
  match s with
  | EmptyString => false
  | String c rest => class c || has_code_unit class rest
  end.

(** [[()]] *)
Definition is_paren (c : ascii) : bool :=
  Ascii.eqb c "("%char || Ascii.eqb c ")"%char.

(** [[._]] *)
Definition is_separator (c : ascii) : bool :=
  Ascii.eqb c "."%char || Ascii.eqb c "_"%char.

(** [s.replace(/[._]/g, ' ')] *)
Fixpoint replace_separators (s : string) : string :=
  match s with
  | EmptyString => EmptyString
  | String c rest =>
      String (if is_separator c then " "%char else c) (replace_separators rest)
  end.

(** [s.split(' ')]: one piece more than there are spaces. *)
Fixpoint split_spaces (s : string) : list string :=
  match s with
  | EmptyString => [EmptyString]
  | String c rest =>
      if Ascii.eqb c " "%char then EmptyString :: split_spaces rest
      else
        match split_spaces rest with
        | word :: words => String c word :: words
        | [] => [String c EmptyString]
        end
  end.

(** [c.toUpperCase()] for one code unit below 256: a-z and the Latin-1
    small letters move down by 32; the sharp s becomes two letters; the
    micro sign and the y with diaeresis have their capitals above 255. *)
Definition upper_code_unit (c : ascii) : option string :=
  let n := N_of_ascii c in
  if ((97 <=? n) && (n <=? 122))%N
  then Some (String (ascii_of_N (n - 32)) EmptyString)
  else if ((224 <=? n) && (n <=? 254) && negb (n =? 247))%N
  then Some (String (ascii_of_N (n - 32)) EmptyString)
  else if (n =? 223)%N then Some "SS"
  else if ((n =? 181) || (n =? 255))%N then None
  else Some (String c EmptyString).

(** [word.charAt(0).toUpperCase() + word.slice(1)] *)
Definition capitalize (word : string) : option string :=
  match word with
  | EmptyString => Some EmptyString
  | String c rest =>
      match upper_code_unit c with
      | Some upper => Some (upper ++ rest)
      | None => None
      end
  end.

(** [words.map(capitalize)], as long as every word stays in the alphabet. *)
Fixpoint capitalize_all (words : list string) : option (list string) :=
  match words with
  | [] => Some []
  | word :: rest =>
      match capitalize word, capitalize_all rest with
      | Some w, Some ws => Some (w :: ws)
      | _, _ => None
      end
  end.

Definition humanize (source : string) : Label :=
  match capitalize_all
          (filter truthy (split_spaces (replace_separators source))) with
  | Some words => Text (String.concat " " words)
  | None => OutOfAlphabet
  end.

Definition friendlyLabel (source : string)
    (dictionary : list (string * string)) : Label :=
  let normalized := toLowerCase source in
  let otherwise :=
    if has_code_unit is_white_space source || has_code_unit is_paren source
    then Text source
    else humanize source in
  match member dictionary normalized with
  | Own label => if truthy label then Text label else otherwise
  | Inherited => NotText
  | Missing => otherwise
  end.

Definition formatEventLabel (eventType : string) : Label :=
  friendlyLabel eventType EVENT_LABELS.

(** [reason] is [None] when it is [null] or missing; so is the result when
    it is [null]. *)
Definition formatStatusReason (reason : option string) : option Label :=
  match reason with
  | None => None
  | Some r => if truthy r then Some (friendlyLabel r STATUS_REASON_LABELS)
              else None
  end.

(** A key no free text can be equal to: it has neither white space nor a
    parenthesis. *)
Definition plain_key (key : string) : bool :=
  negb (has_code_unit is_white_space key || has_code_unit is_paren key).

(** The two code units below 256 whose capital is above 255. *)
Definition capital_above_255 (c : ascii) : bool :=
  let n := N_of_ascii c in ((n =? 181) || (n =? 255))%N.

End Labels.

(* ===================================================================== *)
(** * Properties of the classifier *)
(* ===================================================================== *)

Section ClassifierFacts.

Lemma prefix_trans (p q s : string) :
  String.prefix p q = true -> String.prefix q s = true ->
  String.prefix p s = true.
Proof.
  revert q s.
  induction p as [|a p IH]; intros q s Hpq Hqs.
  - destruct s; reflexivity.
  - destruct q as [|b q]; [discriminate Hpq|].
    destruct s as [|c s]; [discriminate Hqs|].
    simpl in *.
    destruct (ascii_dec a b) as [->|]; [|discriminate Hpq].
    destruct (ascii_dec b c) as [->|]; [|discriminate Hqs].
    eauto.
Qed.

Lemma some_prefix_In (prefixes : list string) (normalized prefix : string) :
  In prefix prefixes -> startsWith normalized prefix = true ->
  some_prefix prefixes normalized = true.
Proof.
  intros Hin Hstart. unfold some_prefix.
  apply existsb_exists. exists prefix. split; assumption.
Qed.

Lemma some_prefix_none (prefixes : list string) (normalized : string) :
  (forall prefix, In prefix prefixes -> startsWith normalized prefix = false) ->
  some_prefix prefixes normalized = false.
Proof.
  intros Hnone. unfold some_prefix.
  destruct (existsb _ prefixes) eqn:E; [|reflexivity].
  apply existsb_exists in E. destruct E as [prefix [Hin Hstart]].
  rewrite (Hnone prefix Hin) in Hstart. discriminate.
Qed.

Lemma truthy_iff (s : string) : truthy s = true <-> s <> "".
Proof.
  destruct s; simpl; split; intro H; easy.
Qed.

Lemma synthesized_nonempty (fallback eventType : string) :
  fallback ++ " (" ++ eventType ++ ")" <> "".
Proof. destruct fallback; discriminate. Qed.

(** The two shapes of [buildReason]'s answer. *)
Lemma buildReason_cases (eventType : string) (payload : option JsonValue)
    (fallback : string) :
  (exists possible,
      object_get payload "reason" = Some (JsonString possible)
      /\ trim possible <> ""
      /\ buildReason eventType payload fallback = possible)
  \/ ((forall possible,
         object_get payload "reason" = Some (JsonString possible) ->
         trim possible = "")
      /\ buildReason eventType payload fallback
         = fallback ++ " (" ++ eventType ++ ")").
Proof.
  unfold buildReason.
  destruct (object_has_key payload "reason") eqn:Hkey.
  - destruct (object_get payload "reason") as [[| | |possible| |]|] eqn:Hget;
      try (right; split; [intros ? [=]|reflexivity]).
    destruct (truthy (trim possible)) eqn:Ht.
    + left. exists possible. repeat split. now apply truthy_iff.
    + right. split; [|reflexivity].
      intros p [= <-]. destruct (trim possible); [reflexivity|discriminate].
  - right. split; [|reflexivity].
    intros possible Hget. exfalso.
    unfold object_has_key, object_get in *.
    destruct payload as [[| | | | |fields]|]; try discriminate.
    rewrite Hget in Hkey. discriminate.
Qed.

Lemma buildReason_nonempty (eventType : string) (payload : option JsonValue)
    (fallback : string) :
  buildReason eventType payload fallback <> "".
Proof.
  destruct (buildReason_cases eventType payload fallback)
    as [[possible [_ [Hne ->]]]|[_ ->]].
  - intros ->. now apply Hne.
  - apply synthesized_nonempty.
Qed.

(** The classifier's answer, group by group. *)
Lemma classifyEvent_cases (eventType : string) (payload : option JsonValue) :
  let normalized := toLowerCase eventType in
  (some_prefix ATTENTION_EVENT_PREFIXES normalized = true
   /\ classifyEvent eventType payload
      = {| derivedStatus := Some "attention_drift";
           statusReason := Some (buildReason eventType payload
                                   (fallback_phrase "attention_drift")) |})
  \/ (some_prefix ATTENTION_EVENT_PREFIXES normalized = false
      /\ some_prefix FRICTION_EVENT_PREFIXES normalized = true
      /\ classifyEvent eventType payload
         = {| derivedStatus := Some "content_friction";
              statusReason := Some (buildReason eventType payload
                                      (fallback_phrase "content_friction")) |})
  \/ (some_prefix ATTENTION_EVENT_PREFIXES normalized = false
      /\ some_prefix FRICTION_EVENT_PREFIXES normalized = false
      /\ some_prefix VIDEO_EVENT_PREFIXES normalized = true
      /\ classifyEvent eventType payload
         = {| derivedStatus := Some "engaged";
              statusReason := Some (buildReason eventType payload
                                      (fallback_phrase "engaged")) |})
  \/ (some_prefix ATTENTION_EVENT_PREFIXES normalized = false
      /\ some_prefix FRICTION_EVENT_PREFIXES normalized = false
      /\ some_prefix VIDEO_EVENT_PREFIXES normalized = false
      /\ classifyEvent eventType payload
         = {| derivedStatus := None; statusReason := None |}).
Proof.
  intro normalized. unfold classifyEvent. fold normalized.
  destruct (some_prefix ATTENTION_EVENT_PREFIXES normalized);
    [left; split; reflexivity|].
  destruct (some_prefix FRICTION_EVENT_PREFIXES normalized);
    [right; left; repeat split; reflexivity|].
  destruct (some_prefix VIDEO_EVENT_PREFIXES normalized);
    [right; right; left; repeat split; reflexivity|].
  right; right; right. repeat split; reflexivity.
Qed.

End ClassifierFacts.

(** C1. Every event type that, lowercased, starts with one of the
    attention-drift prefixes is classified [attention_drift], whatever the
    other two groups would say of it; with the prefix [lesson.locked_click]
    the engaged group matches too (through [lesson.]) and the answer is
    still [attention_drift]. *)
Theorem classifyEvent_attention_drift_first
    (eventType : string) (payload : option JsonValue) (prefix : string) :
  In prefix ATTENTION_EVENT_PREFIXES ->
  startsWith (toLowerCase eventType) prefix = true ->
  derivedStatus (classifyEvent eventType payload) = Some "attention_drift"
  /\ (prefix = "lesson.locked_click" ->
      In "lesson." VIDEO_EVENT_PREFIXES
      /\ startsWith (toLowerCase eventType) "lesson." = true
      /\ some_prefix VIDEO_EVENT_PREFIXES (toLowerCase eventType) = true).
Proof.
  intros Hin Hstart. split.
  - unfold classifyEvent.
    rewrite (some_prefix_In _ _ _ Hin Hstart). reflexivity.
  - intros ->.
    assert (Hin' : In "lesson." VIDEO_EVENT_PREFIXES) by (simpl; tauto).
    assert (Hlesson : startsWith (toLowerCase eventType) "lesson." = true).
    { unfold startsWith in *.
      apply (prefix_trans "lesson." "lesson.locked_click"); [reflexivity|exact Hstart]. }
    repeat split; try assumption.
    exact (some_prefix_In _ _ _ Hin' Hlesson).
Qed.

Lemma classifyEvent_attention_drift_first_witness :
  derivedStatus (classifyEvent "Lesson.Locked_Click.module-2" None)
  = Some "attention_drift"
  /\ some_prefix VIDEO_EVENT_PREFIXES (toLowerCase "Lesson.Locked_Click.module-2")
     = true.
Proof.
  destruct (classifyEvent_attention_drift_first
              "Lesson.Locked_Click.module-2" None "lesson.locked_click")
    as [Hstatus Hoverlap].
  - simpl. tauto.
  - reflexivity.
  - split; [exact Hstatus|]. now apply Hoverlap.
Defined.

(** C5, as the code has it. When a prefix group matches: if the payload is
    an object whose [reason] is a string that is not blank (not empty once
    trimmed), [statusReason] is that string, untouched; in every other case
    it is the group's fallback phrase followed by the original event type
    in parentheses. *)
Theorem classifyEvent_statusReason
    (eventType : string) (payload : option JsonValue) (status : string) :
  derivedStatus (classifyEvent eventType payload) = Some status ->
  (forall possible,
      object_get payload "reason" = Some (JsonString possible) ->
      trim possible <> "" ->
      statusReason (classifyEvent eventType payload) = Some possible)
  /\ ((forall possible,
         object_get payload "reason" = Some (JsonString possible) ->
         trim possible = "") ->
      statusReason (classifyEvent eventType payload)
      = Some (fallback_phrase status ++ " (" ++ eventType ++ ")")).
Proof.
  intros Hstatus.
  assert (Hreason : statusReason (classifyEvent eventType payload)
                    = Some (buildReason eventType payload (fallback_phrase status))).
  { destruct (classifyEvent_cases eventType payload)
      as [[_ E]|[[_ [_ E]]|[[_ [_ [_ E]]]|[_ [_ [_ E]]]]]];
      rewrite E in *; simpl in *; congruence. }
  rewrite Hreason.
  destruct (buildReason_cases eventType payload (fallback_phrase status))
    as [[p [Hget [Hne ->]]]|[Hblank ->]].
  - split.
    + intros possible Hget' _. congruence.
    + intros Hall. contradiction Hne. now apply Hall.
  - split.
    + intros possible Hget Hne. contradiction Hne. now apply Hblank.
    + reflexivity.
Qed.

Lemma classifyEvent_statusReason_witness :
  statusReason
    (classifyEvent "quiz.fail"
       (Some (JsonObject [("score", JsonNumber 2);
                          ("reason", JsonString " stuck on question 3 ")])))
  = Some " stuck on question 3 "
  /\ statusReason (classifyEvent "Quiz.Fail" (Some (JsonString "reason")))
     = Some "Learner signaled friction (Quiz.Fail)".
Proof.
  split.
  - apply (proj1 (classifyEvent_statusReason "quiz.fail" _ "content_friction"
                    eq_refl)).
    + reflexivity.
    + vm_compute. discriminate.
  - apply (proj2 (classifyEvent_statusReason "Quiz.Fail" _ "content_friction"
                    eq_refl)).
    intros possible Hget. discriminate Hget.
Defined.

(** C5 as the specification words it fails on a reason made of white space
    only: the string is not empty, and the reason is synthesized all the
    same. *)
Lemma classifyEvent_blank_reason_counterexample :
  let payload := Some (JsonObject [("reason", JsonString "   ")]) in
  object_get payload "reason" = Some (JsonString "   ")
  /\ "   " <> ""
  /\ statusReason (classifyEvent "video.pause" payload)
     = Some "Idle or pause pattern detected (video.pause)"
  /\ statusReason (classifyEvent "video.pause" payload) <> Some "   ".
Proof.
  cbv zeta. repeat split; try reflexivity; try discriminate.
Qed.

(** C8. An event type that, lowercased, starts with no prefix of any of the
    three groups is unclassified: both fields of the answer are absent. *)
Theorem classifyEvent_no_match
    (eventType : string) (payload : option JsonValue) :
  (forall prefix,
      In prefix (ATTENTION_EVENT_PREFIXES ++ FRICTION_EVENT_PREFIXES
                 ++ VIDEO_EVENT_PREFIXES)%list ->
      startsWith (toLowerCase eventType) prefix = false) ->
  derivedStatus (classifyEvent eventType payload) = None
  /\ statusReason (classifyEvent eventType payload) = None.
Proof.
  intros Hnone. unfold classifyEvent.
  rewrite !some_prefix_none; [split; reflexivity| | |];
    intros prefix Hin; apply Hnone; rewrite !in_app_iff; tauto.
Qed.

Lemma classifyEvent_no_match_witness :
  derivedStatus
    (classifyEvent "page.view" (Some (JsonObject [("reason", JsonString "x")])))
  = None
  /\ statusReason
       (classifyEvent "page.view" (Some (JsonObject [("reason", JsonString "x")])))
     = None.
Proof.
  apply classifyEvent_no_match.
  intros prefix Hin. simpl in Hin.
  repeat (destruct Hin as [<-|Hin]; [reflexivity|]). contradiction.
Defined.

(** C10. The two fields of the classifier's answer come together: one is
    present exactly when the other is; a status that is present is one of
    [attention_drift], [content_friction], [engaged], and a reason that is
    present is not the empty string. *)
Theorem classifyEvent_fields_paired
    (eventType : string) (payload : option JsonValue) :
  let result := classifyEvent eventType payload in
  ((exists status, derivedStatus result = Some status)
   <-> (exists reason, statusReason result = Some reason))
  /\ (forall status, derivedStatus result = Some status ->
        status = "attention_drift" \/ status = "content_friction"
        \/ status = "engaged")
  /\ (forall reason, statusReason result = Some reason -> reason <> "").
Proof.
  cbv zeta.
  destruct (classifyEvent_cases eventType payload)
    as [[_ E]|[[_ [_ E]]|[[_ [_ [_ E]]]|[_ [_ [_ E]]]]]];
    rewrite E; simpl; (split; [|split]).
  all: try (split; intros [? [=]]; fail).
  all: try (split; intros _; eexists; reflexivity).
  all: try (intros ? [= <-]; tauto).
  all: try (intros ? [= <-]; apply buildReason_nonempty).
  all: intros ? [=].
Qed.

Lemma classifyEvent_fields_paired_witness :
  derivedStatus (classifyEvent "notes.open" None) = Some "engaged"
  /\ statusReason (classifyEvent "notes.open" None)
     = Some "Learner interacting with content (notes.open)"
  /\ "Learner interacting with content (notes.open)" <> "".
Proof.
  destruct (classifyEvent_fields_paired "notes.open" None) as [_ [_ Hne]].
  repeat split. apply Hne. reflexivity.
Defined.

(* ===================================================================== *)
(** * Properties of the sort *)
(* ===================================================================== *)

Section SortFacts.
Context {A : Type} (compareFn : A -> A -> Z).

Lemma insert_sorted_perm (x : A) (l : list A) :
  Permutation (x :: l) (insert_sorted compareFn x l).
Proof.
  induction l as [|y l IH]; simpl.
  - apply Permutation_refl.
  - destruct (compareFn x y <=? 0).
    + apply Permutation_refl.
    + eapply perm_trans; [apply perm_swap|]. now apply perm_skip.
Qed.

Lemma sort_perm (l : list A) : Permutation l (sort compareFn l).
Proof.
  induction l as [|x l IH]; simpl.
  - constructor.
  - eapply perm_trans; [|apply insert_sorted_perm]. now apply perm_skip.
Qed.

Lemma sort_In (l : list A) (x : A) : In x (sort compareFn l) <-> In x l.
Proof.
  split; apply Permutation_in;
    [apply Permutation_sym|]; apply sort_perm.
Qed.

(** The comparator has to be a total preorder only on the elements that are
    sorted, those that satisfy [P]. *)
Variable P : A -> Prop.
Hypothesis compareFn_total :
  forall a b, P a -> P b -> 0 < compareFn a b -> compareFn b a <= 0.
Hypothesis compareFn_trans :
  forall a b c, P a -> P b -> P c ->
    compareFn a b <= 0 -> compareFn b c <= 0 -> compareFn a c <= 0.

Lemma insert_sorted_sorted (x : A) (l : list A) :
  P x -> Forall P l -> StronglySorted (in_order compareFn) l ->
  StronglySorted (in_order compareFn) (insert_sorted compareFn x l).
Proof.
  intros Px HP Hs. induction Hs as [|y l Hs IH Hy]; simpl.
  - constructor; constructor.
  - inversion HP as [|? ? Py HPl]; subst.
    pose proof (proj1 (Forall_forall _ _) Hy) as Hy'.
    pose proof (proj1 (Forall_forall _ _) HPl) as HPl'.
    destruct (compareFn x y <=? 0) eqn:E.
    + apply Z.leb_le in E. constructor.
      * now constructor.
      * constructor; [exact E|].
        apply Forall_forall. intros z Hz.
        apply (compareFn_trans x y z); auto. now apply Hy'.
    + apply Z.leb_gt in E. constructor.
      * now apply IH.
      * apply Forall_forall. intros z Hz.
        apply (Permutation_in _ (Permutation_sym (insert_sorted_perm x l))) in Hz.
        destruct Hz as [<-|Hz]; [|now apply Hy'].
        apply compareFn_total; auto.
Qed.

Lemma sort_sorted (l : list A) :
  Forall P l -> StronglySorted (in_order compareFn) (sort compareFn l).
Proof.
  induction 1 as [|x l Px HP IH]; simpl.
  - constructor.
  - apply insert_sorted_sorted; auto.
    rewrite Forall_forall in HP. apply Forall_forall.
    intros y Hy. apply HP. now apply sort_In.
Qed.

End SortFacts.

(** In a sorted list, [find] meets the first of the elements that pass the
    test, which is in order with all the others that pass. *)
Lemma find_first_in_order {A : Type} (R : A -> A -> Prop) (f : A -> bool)
    (l : list A) (e : A) :
  StronglySorted R l -> find f l = Some e ->
  forall e', In e' l -> f e' = true -> e' = e \/ R e e'.
Proof.
  induction 1 as [|x l Hs IH Hx]; simpl; [discriminate|].
  destruct (f x) eqn:Fx.
  - intros [= <-] e' [<-|Hin] _; [now left|right].
    rewrite Forall_forall in Hx. now apply Hx.
  - intros Hfind e' [<-|Hin] Fe'; [congruence|]. now apply IH.
Qed.


(* ===================================================================== *)
(** * Properties of the aggregator *)
(* ===================================================================== *)

Section AggregatorFacts.

Lemma has_status_iff (status : string) (event : StatusRow.LearnerStatusRow) :
  has_status status event = true <-> StatusRow.derivedStatus event = Some status.
Proof.
  unfold has_status. destruct (StatusRow.derivedStatus event) as [d|].
  - rewrite String.eqb_eq. split; congruence.
  - split; discriminate.
Qed.

Lemma with_derivedStatus_same (event : StatusRow.LearnerStatusRow) (status : string) :
  has_status status event = true -> StatusRow.with_derivedStatus event status = event.
Proof.
  intros H. apply has_status_iff in H.
  destruct event; simpl in *. subst. reflexivity.
Qed.

Lemma priority_friction (event : StatusRow.LearnerStatusRow) :
  priority event = 3 <-> StatusRow.derivedStatus event = Some "content_friction".
Proof.
  unfold priority. rewrite <- has_status_iff.
  destruct (has_status "content_friction" event);
    destruct (has_status "attention_drift" event);
    destruct (has_status "engaged" event); split; intro; try lia; easy.
Qed.

Lemma priority_attention (event : StatusRow.LearnerStatusRow) :
  priority event = 2 <-> StatusRow.derivedStatus event = Some "attention_drift".
Proof.
  unfold priority.
  destruct (has_status "content_friction" event) eqn:F.
  - apply has_status_iff in F. rewrite F. split; [lia|discriminate].
  - rewrite <- has_status_iff.
    destruct (has_status "attention_drift" event);
      destruct (has_status "engaged" event); split; intro; try lia; easy.
Qed.

Lemma priority_engaged (event : StatusRow.LearnerStatusRow) :
  priority event = 1 <-> StatusRow.derivedStatus event = Some "engaged".
Proof.
  unfold priority.
  destruct (has_status "content_friction" event) eqn:F.
  { apply has_status_iff in F. rewrite F. split; [lia|discriminate]. }
  destruct (has_status "attention_drift" event) eqn:T.
  { apply has_status_iff in T. rewrite T. split; [lia|discriminate]. }
  rewrite <- has_status_iff.
  destruct (has_status "engaged" event); split; intro; try lia; easy.
Qed.

Lemma priority_range (event : StatusRow.LearnerStatusRow) :
  0 <= priority event <= 3.
Proof.
  unfold priority.
  destruct (has_status "content_friction" event);
    destruct (has_status "attention_drift" event);
    destruct (has_status "engaged" event); lia.
Qed.

Lemma priority_unclassified (event : StatusRow.LearnerStatusRow) :
  StatusRow.derivedStatus event = None -> priority event = 0.
Proof.
  intros H. unfold priority, has_status. rewrite H. reflexivity.
Qed.

Lemma sorted_by_createdAt (events : list StatusRow.LearnerStatusRow) :
  StronglySorted (in_order by_createdAt_desc) (sort by_createdAt_desc events).
Proof.
  apply (sort_sorted by_createdAt_desc (fun _ => True)).
  - unfold by_createdAt_desc. intros; lia.
  - unfold by_createdAt_desc. intros; lia.
  - apply Forall_forall. trivial.
Qed.

(** [find] on the sorted window: the most recent row with the status. *)
Lemma find_most_recent (status : string) (events : list StatusRow.LearnerStatusRow)
    (e : StatusRow.LearnerStatusRow) :
  find (has_status status) (sort by_createdAt_desc events) = Some e ->
  In e events
  /\ has_status status e = true
  /\ forall e', In e' events -> has_status status e' = true ->
       StatusRow.createdAt e' <= StatusRow.createdAt e.
Proof.
  intros Hfind. pose proof (find_some _ _ Hfind) as [Hin Hst].
  repeat split; [now apply sort_In in Hin|exact Hst|].
  intros e' Hin' Hst'.
  destruct (find_first_in_order _ _ _ _ (sorted_by_createdAt events) Hfind e')
    as [->|Hord]; [now apply sort_In|exact Hst'|lia|].
  unfold in_order, by_createdAt_desc in Hord. lia.
Qed.

Lemma find_absent (status : string) (events : list StatusRow.LearnerStatusRow) :
  find (has_status status) (sort by_createdAt_desc events) = None ->
  forall e, In e events -> has_status status e = false.
Proof.
  intros Hfind e Hin.
  apply (find_none _ _ Hfind). now apply sort_In.
Qed.

Lemma head_most_recent (events : list StatusRow.LearnerStatusRow) :
  events <> [] ->
  exists h, hd_error (sort by_createdAt_desc events) = Some h
            /\ In h events
            /\ forall e, In e events -> StatusRow.createdAt e <= StatusRow.createdAt h.
Proof.
  intros Hne.
  pose proof (sorted_by_createdAt events) as Hs.
  pose proof (sort_In by_createdAt_desc events) as HIn.
  destruct (sort by_createdAt_desc events) as [|h rest] eqn:E.
  - destruct events as [|x events]; [contradiction|].
    destruct (proj2 (HIn x) (or_introl eq_refl)).
  - exists h. split; [reflexivity|]. split; [apply HIn; now left|].
    intros e Hin. apply HIn in Hin. destruct Hin as [<-|Hin]; [lia|].
    inversion Hs as [|? ? _ Hall]; subst.
    rewrite Forall_forall in Hall. specialize (Hall e Hin).
    unfold in_order, by_createdAt_desc in Hall. lia.
Qed.

(** The aggregator on a window that is not empty: the row it returns is a
    row of the window, no row of the window has a higher priority, and no
    row of the same priority is more recent. *)
Lemma deriveStatusFromEvents_highest_band (events : list StatusRow.LearnerStatusRow) :
  events <> [] ->
  exists r,
    deriveStatusFromEvents events = Some r
    /\ In r events
    /\ (forall e, In e events -> priority e <= priority r)
    /\ (forall e, In e events -> priority e = priority r ->
          StatusRow.createdAt e <= StatusRow.createdAt r).
Proof.
  intros Hne. unfold deriveStatusFromEvents.
  destruct events as [|e0 rest] eqn:Eev; [contradiction|]. rewrite <- Eev in *.
  clear Eev e0 rest.
  destruct (find (has_status "content_friction") _) as [f|] eqn:Ff.
  { destruct (find_most_recent _ _ _ Ff) as [Hin [Hst Hrec]].
    rewrite (with_derivedStatus_same _ _ Hst). exists f.
    assert (Hp : priority f = 3) by (apply priority_friction, has_status_iff, Hst).
    repeat split; auto.
    - intros e _. rewrite Hp. apply priority_range.
    - intros e Hine He. apply Hrec; auto.
      apply has_status_iff, priority_friction. congruence. }
  pose proof (find_absent _ _ Ff) as Nf.
  destruct (find (has_status "attention_drift") _) as [a|] eqn:Fa.
  { destruct (find_most_recent _ _ _ Fa) as [Hin [Hst Hrec]].
    rewrite (with_derivedStatus_same _ _ Hst). exists a.
    assert (Hp : priority a = 2) by (apply priority_attention, has_status_iff, Hst).
    repeat split; auto.
    - intros e Hine. rewrite Hp. unfold priority. rewrite (Nf e Hine).
      destruct (has_status "attention_drift" e);
        destruct (has_status "engaged" e); lia.
    - intros e Hine He. apply Hrec; auto.
      apply has_status_iff, priority_attention. congruence. }
  pose proof (find_absent _ _ Fa) as Na.
  destruct (find (has_status "engaged") _) as [g|] eqn:Fg.
  { destruct (find_most_recent _ _ _ Fg) as [Hin [Hst Hrec]].
    rewrite (with_derivedStatus_same _ _ Hst). exists g.
    assert (Hp : priority g = 1) by (apply priority_engaged, has_status_iff, Hst).
    repeat split; auto.
    - intros e Hine. rewrite Hp. unfold priority.
      rewrite (Nf e Hine), (Na e Hine).
      destruct (has_status "engaged" e); lia.
    - intros e Hine He. apply Hrec; auto.
      apply has_status_iff, priority_engaged. congruence. }
  pose proof (find_absent _ _ Fg) as Ng.
  destruct (head_most_recent events Hne) as [h [Hh [Hin Hrec]]].
  exists h. repeat split; auto.
  - intros e Hine. unfold priority.
    rewrite (Nf e Hine), (Na e Hine), (Ng e Hine).
    rewrite (Nf h Hin), (Na h Hin), (Ng h Hin). lia.
Qed.

Lemma In_not_nil {A : Type} (x : A) (l : list A) : In x l -> l <> [].
Proof. intros H ->. exact H. Qed.

End AggregatorFacts.

(** C3. In a window with a [content_friction] row and a strictly more
    recent [engaged] row, the aggregator returns a [content_friction] row
    of the window, not the [engaged] one: the most recent of the friction
    rows, hence the friction row itself when it is the only one. No row of
    the window has a higher priority than the row returned, in the order
    [content_friction] > [attention_drift] > [engaged]. *)
Theorem deriveStatusFromEvents_friction_over_engaged
    (events : list StatusRow.LearnerStatusRow)
    (friction engaged : StatusRow.LearnerStatusRow) :
  In friction events ->
  StatusRow.derivedStatus friction = Some "content_friction" ->
  In engaged events ->
  StatusRow.derivedStatus engaged = Some "engaged" ->
  StatusRow.createdAt friction < StatusRow.createdAt engaged ->
  exists r,
    deriveStatusFromEvents events = Some r
    /\ In r events
    /\ StatusRow.derivedStatus r = Some "content_friction"
    /\ r <> engaged
    /\ (forall f, In f events ->
          StatusRow.derivedStatus f = Some "content_friction" ->
          StatusRow.createdAt f <= StatusRow.createdAt r)
    /\ ((forall f, In f events ->
           StatusRow.derivedStatus f = Some "content_friction" -> f = friction) ->
        r = friction)
    /\ (forall e, In e events -> priority e <= priority r).
Proof.
  intros Hf Sf He Se Hlt.
  destruct (deriveStatusFromEvents_highest_band events (In_not_nil _ _ Hf))
    as [r [Hr [Hin [Hmax Hrec]]]].
  assert (Hp : priority r = 3).
  { pose proof (Hmax friction Hf) as H.
    rewrite (proj2 (priority_friction friction) Sf) in H.
    pose proof (priority_range r). lia. }
  assert (Sr : StatusRow.derivedStatus r = Some "content_friction")
    by now apply priority_friction.
  exists r. repeat split; auto.
  - intros ->. congruence.
  - intros f Hinf Sff. apply Hrec; auto.
    rewrite Hp. now apply priority_friction.
Qed.

Lemma deriveStatusFromEvents_friction_over_engaged_witness :
  deriveStatusFromEvents
    [example_row "e3" "video.play" (Some "engaged") 300;
     example_row "e1" "quiz.fail" (Some "content_friction") 100;
     example_row "e2" "idle.start" (Some "attention_drift") 200;
     example_row "e4" "page.view" None 400]
  = Some (example_row "e1" "quiz.fail" (Some "content_friction") 100).
Proof.
  destruct (deriveStatusFromEvents_friction_over_engaged
              [example_row "e3" "video.play" (Some "engaged") 300;
               example_row "e1" "quiz.fail" (Some "content_friction") 100;
               example_row "e2" "idle.start" (Some "attention_drift") 200;
               example_row "e4" "page.view" None 400]
              (example_row "e1" "quiz.fail" (Some "content_friction") 100)
              (example_row "e3" "video.play" (Some "engaged") 300))
    as [r [Hr [_ [_ [_ [_ [Honly _]]]]]]].
  - simpl. tauto.
  - reflexivity.
  - simpl. tauto.
  - reflexivity.
  - reflexivity.
  - rewrite Hr. f_equal. apply Honly.
    intros f Hin Sf. simpl in Hin.
    destruct Hin as [<-|[<-|[<-|[<-|[]]]]]; try discriminate Sf. reflexivity.
Defined.

(** C6. In a window with two [attention_drift] rows, one strictly more
    recent than the other, and no [content_friction] row, the aggregator
    returns an [attention_drift] row at least as recent as the more recent
    of the two, never the older one; when the two are the only
    [attention_drift] rows of the window it returns the more recent one.
    The row returned is the most recent of the rows that carry the highest
    priority present. *)
Theorem deriveStatusFromEvents_recency_within_band
    (events : list StatusRow.LearnerStatusRow)
    (older newer : StatusRow.LearnerStatusRow) :
  In older events -> StatusRow.derivedStatus older = Some "attention_drift" ->
  In newer events -> StatusRow.derivedStatus newer = Some "attention_drift" ->
  StatusRow.createdAt older < StatusRow.createdAt newer ->
  (forall e, In e events -> StatusRow.derivedStatus e <> Some "content_friction") ->
  exists r,
    deriveStatusFromEvents events = Some r
    /\ In r events
    /\ StatusRow.derivedStatus r = Some "attention_drift"
    /\ StatusRow.createdAt newer <= StatusRow.createdAt r
    /\ r <> older
    /\ ((forall e, In e events ->
           StatusRow.derivedStatus e = Some "attention_drift" ->
           e = older \/ e = newer) ->
        r = newer)
    /\ (forall e, In e events -> priority e <= priority r)
    /\ (forall e, In e events -> priority e = priority r ->
          StatusRow.createdAt e <= StatusRow.createdAt r).
Proof.
  intros Ho So Hn Sn Hlt Hnof.
  destruct (deriveStatusFromEvents_highest_band events (In_not_nil _ _ Ho))
    as [r [Hr [Hin [Hmax Hrec]]]].
  assert (Hp : priority r = 2).
  { pose proof (Hmax newer Hn) as H.
    rewrite (proj2 (priority_attention newer) Sn) in H.
    pose proof (priority_range r) as Hrange.
    assert (priority r <> 3).
    { intros H3. apply priority_friction in H3. exact (Hnof r Hin H3). }
    lia. }
  assert (Sr : StatusRow.derivedStatus r = Some "attention_drift")
    by now apply priority_attention.
  assert (Hnew : StatusRow.createdAt newer <= StatusRow.createdAt r).
  { apply Hrec; auto. rewrite Hp. now apply priority_attention. }
  exists r. repeat split; auto.
  - intros ->. lia.
  - intros Honly. destruct (Honly r Hin Sr) as [-> | ->]; [lia|reflexivity].
Qed.

Lemma deriveStatusFromEvents_recency_within_band_witness :
  deriveStatusFromEvents
    [example_row "e1" "video.pause" (Some "attention_drift") 100;
     example_row "e3" "video.resume" (Some "engaged") 300;
     example_row "e2" "idle.detected" (Some "attention_drift") 200]
  = Some (example_row "e2" "idle.detected" (Some "attention_drift") 200).
Proof.
  destruct (deriveStatusFromEvents_recency_within_band
              [example_row "e1" "video.pause" (Some "attention_drift") 100;
               example_row "e3" "video.resume" (Some "engaged") 300;
               example_row "e2" "idle.detected" (Some "attention_drift") 200]
              (example_row "e1" "video.pause" (Some "attention_drift") 100)
              (example_row "e2" "idle.detected" (Some "attention_drift") 200))
    as [r [Hr [_ [_ [_ [_ [Honly _]]]]]]].
  - simpl. tauto.
  - reflexivity.
  - simpl. tauto.
  - reflexivity.
  - reflexivity.
  - intros e Hin. simpl in Hin.
    destruct Hin as [<-|[<-|[<-|[]]]]; discriminate.
  - rewrite Hr. f_equal. apply Honly.
    intros e Hin Se. simpl in Hin.
    destruct Hin as [<-|[<-|[<-|[]]]]; try discriminate Se; tauto.
Defined.

(** C7. A row with no status is never the representative of a window that
    holds a row whose status is [engaged], [attention_drift] or
    [content_friction]: the row returned then carries one of the three.
    When no row of a window that is not empty has a status, the row
    returned is one of them, and none is more recent. *)
Theorem deriveStatusFromEvents_unclassified_last
    (events : list StatusRow.LearnerStatusRow) :
  (forall classified status,
      In classified events ->
      StatusRow.derivedStatus classified = Some status ->
      status = "engaged" \/ status = "attention_drift"
      \/ status = "content_friction" ->
      exists r,
        deriveStatusFromEvents events = Some r
        /\ In r events
        /\ StatusRow.derivedStatus r <> None
        /\ (StatusRow.derivedStatus r = Some "engaged"
            \/ StatusRow.derivedStatus r = Some "attention_drift"
            \/ StatusRow.derivedStatus r = Some "content_friction"))
  /\ (events <> [] ->
      (forall e, In e events -> StatusRow.derivedStatus e = None) ->
      exists r,
        deriveStatusFromEvents events = Some r
        /\ In r events
        /\ StatusRow.derivedStatus r = None
        /\ (forall e, In e events -> StatusRow.createdAt e <= StatusRow.createdAt r)).
Proof.
  split.
  - intros c status Hc Sc Hthree.
    destruct (deriveStatusFromEvents_highest_band events (In_not_nil _ _ Hc))
      as [r [Hr [Hin [Hmax _]]]].
    assert (Hpc : 1 <= priority c).
    { destruct Hthree as [-> | [-> | ->]].
      - apply priority_engaged in Sc. lia.
      - apply priority_attention in Sc. lia.
      - apply priority_friction in Sc. lia. }
    pose proof (Hmax c Hc) as Hle. pose proof (priority_range r) as Hrange.
    assert (Hthree_r : StatusRow.derivedStatus r = Some "engaged"
                       \/ StatusRow.derivedStatus r = Some "attention_drift"
                       \/ StatusRow.derivedStatus r = Some "content_friction").
    { rewrite <- priority_engaged, <- priority_attention, <- priority_friction.
      lia. }
    exists r. repeat split; auto.
    destruct Hthree_r as [E|[E|E]]; rewrite E; discriminate.
  - intros Hne Hnone.
    destruct (deriveStatusFromEvents_highest_band events Hne)
      as [r [Hr [Hin [_ Hrec]]]].
    exists r. repeat split; auto.
    intros e He. apply Hrec; auto.
    rewrite !priority_unclassified; auto.
Qed.

Lemma deriveStatusFromEvents_unclassified_last_witness :
  (exists r,
      deriveStatusFromEvents
        [example_row "e2" "page.view" None 200;
         example_row "e1" "notes.open" (Some "engaged") 100] = Some r
      /\ StatusRow.derivedStatus r <> None)
  /\ (exists r,
        deriveStatusFromEvents
          [example_row "e1" "page.view" None 100;
           example_row "e2" "page.leave" None 200] = Some r
        /\ StatusRow.derivedStatus r = None
        /\ 200 <= StatusRow.createdAt r).
Proof.
  split.
  - destruct (proj1 (deriveStatusFromEvents_unclassified_last
                       [example_row "e2" "page.view" None 200;
                        example_row "e1" "notes.open" (Some "engaged") 100])
                (example_row "e1" "notes.open" (Some "engaged") 100) "engaged")
      as [r [Hr [_ [Hsome _]]]].
    + simpl. tauto.
    + reflexivity.
    + tauto.
    + exists r. split; assumption.
  - destruct (proj2 (deriveStatusFromEvents_unclassified_last
                       [example_row "e1" "page.view" None 100;
                        example_row "e2" "page.leave" None 200]))
      as [r [Hr [_ [Hnone Hrec]]]].
    + discriminate.
    + intros e Hin. simpl in Hin.
      destruct Hin as [<-|[<-|Hin]]; try reflexivity. contradiction.
    + exists r. repeat split; try assumption.
      apply (Hrec (example_row "e2" "page.leave" None 200)). simpl. tauto.
Defined.

(* ===================================================================== *)
(** * Properties of the event store *)
(* ===================================================================== *)

Lemma Forall2_compose {A B C : Type} (R1 : A -> B -> Prop)
    (R2 : B -> C -> Prop) (R : A -> C -> Prop) (la : list A) (lb : list B)
    (lc : list C) :
  (forall a b c, R1 a b -> R2 b c -> R a c) ->
  Forall2 R1 la lb -> Forall2 R2 lb lc -> Forall2 R la lc.
Proof.
  intros HR H1. revert lc.
  induction H1 as [|a b la lb Hab _ IH]; intros lc H2; inversion H2; subst.
  - constructor.
  - constructor; eauto.
Qed.

Section EventStoreFacts.
Variable new_Date : nat -> Date.
Variable default_event_id : nat -> string.

Lemma createdAt_source_widen (from from' to to' : nat)
    (event : Input.TelemetryEventInput) (row : Stored.LearnerActivityEvent) :
  (from' <= from)%nat -> (to <= to')%nat ->
  createdAt_source new_Date from to event row ->
  createdAt_source new_Date from' to' event row.
Proof.
  unfold createdAt_source. intros Hf Ht.
  destruct (Input.occurredAt event); [trivial|].
  intros [k [Hk E]]. exists k. split; [lia|exact E].
Qed.

Lemma build_rows_createdAt (userId : string)
    (events : list Input.TelemetryEventInput) (reads : nat) :
  (reads <= snd (build_rows new_Date userId events reads))%nat
  /\ Forall2 (createdAt_source new_Date reads
                (snd (build_rows new_Date userId events reads)))
       events (fst (build_rows new_Date userId events reads)).
Proof.
  revert reads. induction events as [|event rest IH]; intros reads; simpl.
  - split; [lia|constructor].
  - destruct (build_row new_Date userId event reads) as [row reads1] eqn:Erow.
    specialize (IH reads1).
    destruct (build_rows new_Date userId rest reads1) as [rows reads2] eqn:Erows.
    simpl in *. destruct IH as [Hle Hall].
    assert (Hrow : (reads <= reads1)%nat
                   /\ createdAt_source new_Date reads reads1 event row).
    { unfold build_row in Erow. unfold createdAt_source.
      destruct (Input.occurredAt event) as [occurred|];
        injection Erow as <- <-; simpl.
      - split; [lia|reflexivity].
      - split; [lia|]. exists reads. split; [lia|reflexivity]. }
    destruct Hrow as [Hle1 Hsrc]. split; [lia|].
    constructor.
    + apply (createdAt_source_widen reads reads reads1 reads2); auto.
    + eapply Forall2_impl; [|exact Hall].
      intros e r. apply createdAt_source_widen; lia.
Qed.

Lemma createMany_appends (data table : list Stored.LearnerActivityEvent) :
  exists stored,
    createMany default_event_id data table = (table ++ stored)%list
    /\ Forall2 (fun row kept => exists id, kept = with_event_id id row)
         data stored.
Proof.
  revert table. induction data as [|row rest IH]; intros table; simpl.
  - exists []. split; [now rewrite app_nil_r|constructor].
  - destruct (IH (table ++ [with_event_id
                              (default_event_id (List.length table)) row])%list)
      as [stored [E Hall]].
    exists (with_event_id (default_event_id (List.length table)) row :: stored).
    split.
    + rewrite E, <- app_assoc. reflexivity.
    + constructor; [eauto|exact Hall].
Qed.

End EventStoreFacts.

(** C2, as the code has it. [recordActivityEvents] leaves the rows of the
    table as they are and appends one row per event, in order. The
    [createdAt] of an appended row is the [occurredAt] the client sent with
    the event whenever there is one; it is a reading of the server's clock,
    taken during the call, only for an event that came without
    [occurredAt]. *)
Theorem recordActivityEvents_createdAt
    (new_Date : nat -> Date) (default_event_id : nat -> string)
    (userId : string) (events : list Input.TelemetryEventInput) (s : Server) :
  let s' := recordActivityEvents new_Date default_event_id userId events s in
  exists appended,
    learner_activity_events s'
    = (learner_activity_events s ++ appended)%list
    /\ Forall2 (createdAt_source new_Date (clock_reads s) (clock_reads s'))
         events appended.
Proof.
  cbv zeta. unfold recordActivityEvents.
  destruct events as [|event rest] eqn:Eev.
  - exists []. split; [now rewrite app_nil_r|constructor].
  - rewrite <- Eev. clear Eev event rest.
    pose proof (build_rows_createdAt new_Date userId events (clock_reads s))
      as [_ Hall].
    destruct (build_rows new_Date userId events (clock_reads s))
      as [rows reads]. simpl in *.
    destruct (createMany_appends default_event_id rows
                (learner_activity_events s)) as [stored [E Hids]].
    exists stored. split; [exact E|].
    eapply Forall2_compose; [|exact Hall|exact Hids].
    intros event row kept Hsrc [id ->]. exact Hsrc.
Qed.

(** C2 as the specification words it fails on an event that carries
    [occurredAt]: the row stored has that instant as its [createdAt], and
    the server's clock, which reads another instant, is not consulted. *)
Lemma recordActivityEvents_createdAt_counterexample :
  let now := 1700000000000 in
  let occurred := 1600000000000 in
  let s' := recordActivityEvents (example_clock now) example_event_id "u-1"
              [example_input "video.play" (Some occurred)] empty_server in
  map Stored.created_at (learner_activity_events s') = [occurred]
  /\ clock_reads s' = clock_reads empty_server
  /\ (forall k, example_clock now k <> occurred).
Proof.
  cbv zeta. repeat split. intros k. unfold example_clock. discriminate.
Qed.

(* ===================================================================== *)
(** * Properties of the history query and of the history list *)
(* ===================================================================== *)

Section HistoryFacts.

Lemma firstn_In {A : Type} (n : nat) (l : list A) (x : A) :
  In x (firstn n l) -> In x l.
Proof.
  revert l. induction n as [|n IH]; intros [|y l]; simpl; try tauto.
  intros [->|H]; [now left|right; now apply IH].
Qed.

Lemma StronglySorted_firstn {A : Type} (R : A -> A -> Prop) (n : nat)
    (l : list A) :
  StronglySorted R l -> StronglySorted R (firstn n l).
Proof.
  intros Hs. revert n. induction Hs as [|x l Hs IH Hx]; intros [|n]; simpl;
    try constructor.
  - apply IH.
  - apply Forall_forall. intros y Hy.
    rewrite Forall_forall in Hx. apply Hx. eapply firstn_In; eauto.
Qed.

Lemma StronglySorted_map {A B : Type} (R : A -> A -> Prop)
    (R' : B -> B -> Prop) (f : A -> B) (l : list A) :
  (forall a b, R a b -> R' (f a) (f b)) ->
  StronglySorted R l -> StronglySorted R' (map f l).
Proof.
  intros HR. induction 1 as [|x l Hs IH Hx]; simpl; constructor; auto.
  apply Forall_forall. intros y Hy. apply in_map_iff in Hy.
  destruct Hy as [a [<- Ha]]. rewrite Forall_forall in Hx. auto.
Qed.

Lemma StronglySorted_weaken {A : Type} (R R' : A -> A -> Prop) (P : A -> Prop)
    (l : list A) :
  (forall a b, P a -> P b -> R a b -> R' a b) ->
  Forall P l -> StronglySorted R l -> StronglySorted R' l.
Proof.
  intros HR HP. induction 1 as [|x l Hs IH Hx]; constructor;
    inversion HP as [|? ? Px HPl]; subst; auto.
  rewrite Forall_forall in *. intros y Hy. auto.
Qed.

Lemma string_compare_refl (a : string) : String.compare a a = Eq.
Proof.
  pose proof (String.compare_antisym a a) as H.
  destruct (String.compare a a); simpl in H; congruence.
Qed.

Lemma string_compare_lt_trans (a b c : string) :
  String.compare a b = Lt -> String.compare b c = Lt ->
  String.compare a c = Lt.
Proof.
  revert b c. induction a as [|x a IH]; intros [|y b] [|z c]; simpl;
    try easy.
  destruct (Ascii.compare x y) eqn:Exy; try discriminate;
    destruct (Ascii.compare y z) eqn:Eyz; try discriminate.
  - apply Ascii.compare_eq_iff in Exy. subst y. rewrite Eyz. apply IH.
  - apply Ascii.compare_eq_iff in Exy. subst y. rewrite Eyz. trivial.
  - apply Ascii.compare_eq_iff in Eyz. subst z. rewrite Exy. trivial.
  - unfold Ascii.compare in *.
    rewrite N.compare_lt_iff in Exy, Eyz.
    assert (H : (N_of_ascii x ?= N_of_ascii z)%N = Lt)
      by (apply N.compare_lt_iff; lia).
    rewrite H. trivial.
Qed.

Lemma lt_asym (a b : string) :
  JsString.lt a b = true -> JsString.lt b a = false.
Proof.
  unfold JsString.lt, String.ltb. rewrite (String.compare_antisym b a).
  destruct (String.compare a b); simpl; congruence.
Qed.

Lemma lt_irrefl (a : string) : JsString.lt a a = false.
Proof.
  unfold JsString.lt, String.ltb. now rewrite string_compare_refl.
Qed.

Lemma not_lt_trans (a b c : string) :
  JsString.lt a b = false -> JsString.lt b c = false ->
  JsString.lt a c = false.
Proof.
  unfold JsString.lt, String.ltb. intros Hab Hbc.
  destruct (String.compare a c) eqn:Eac; try reflexivity.
  destruct (String.compare a b) eqn:Eab; try discriminate.
  - apply String.compare_eq_iff in Eab. subst b. now rewrite Eac in Hbc.
  - assert (Eba : String.compare b a = Lt)
      by (rewrite String.compare_antisym, Eab; reflexivity).
    now rewrite (string_compare_lt_trans b a c Eba Eac) in Hbc.
Qed.

(** What the comparator of the history list says of two events that both
    carry an id. *)
Lemma compare_history_in_order (a b : Dashboard.ActivityLearner)
    (ida idb : string) :
  Dashboard.eventId a = Some ida -> ida <> "" ->
  Dashboard.eventId b = Some idb -> idb <> "" ->
  (Dashboard.compare_history a b <= 0
   <-> Dashboard.createdAt b < Dashboard.createdAt a
       \/ (Dashboard.createdAt a = Dashboard.createdAt b
           /\ JsString.lt ida idb = false)).
Proof.
  intros Ea Ha Eb Hb. unfold Dashboard.compare_history. rewrite Ea, Eb.
  apply truthy_iff in Ha. apply truthy_iff in Hb. rewrite Ha, Hb. simpl.
  destruct (Dashboard.createdAt b - Dashboard.createdAt a =? 0) eqn:Ed; simpl.
  - apply Z.eqb_eq in Ed.
    destruct (String.eqb ida idb) eqn:Ei; simpl.
    + apply String.eqb_eq in Ei. subst idb. rewrite lt_irrefl.
      split; [intros _; right; split; [lia|reflexivity]|lia].
    + destruct (JsString.lt ida idb); split; lia.
  - apply Z.eqb_neq in Ed. split; [intros H; left; lia|].
    intros [H|[H _]]; lia.
Qed.

Lemma compare_history_total (a b : Dashboard.ActivityLearner) :
  Dashboard.has_event_id a -> Dashboard.has_event_id b ->
  0 < Dashboard.compare_history a b -> Dashboard.compare_history b a <= 0.
Proof.
  intros [ida [Ea Ha]] [idb [Eb Hb]] Hpos.
  apply (compare_history_in_order b a idb ida); auto.
  assert (Hn : ~ Dashboard.compare_history a b <= 0) by lia.
  rewrite (compare_history_in_order a b ida idb) in Hn by auto.
  destruct (Z.lt_trichotomy (Dashboard.createdAt a) (Dashboard.createdAt b))
    as [Hlt|[Heq|Hgt]]; [now left| |exfalso; apply Hn; now left].
  right. split; [lia|].
  destruct (JsString.lt ida idb) eqn:El; [now apply lt_asym|].
  exfalso. apply Hn. right. split; [exact Heq|reflexivity].
Qed.

Lemma compare_history_trans (a b c : Dashboard.ActivityLearner) :
  Dashboard.has_event_id a -> Dashboard.has_event_id b ->
  Dashboard.has_event_id c ->
  Dashboard.compare_history a b <= 0 -> Dashboard.compare_history b c <= 0 ->
  Dashboard.compare_history a c <= 0.
Proof.
  intros [ida [Ea Ha]] [idb [Eb Hb]] [idc [Ec Hc]].
  rewrite (compare_history_in_order a b ida idb),
    (compare_history_in_order b c idb idc),
    (compare_history_in_order a c ida idc) by auto.
  intros [Hab|[Hab Lab]] [Hbc|[Hbc Lbc]]; try (left; lia).
  right. split; [lia|]. exact (not_lt_trans ida idb idc Lab Lbc).
Qed.

Lemma sortedHistoryEvents_sorted (historyEvents : list Dashboard.ActivityLearner) :
  Forall Dashboard.has_event_id historyEvents ->
  StronglySorted Dashboard.newest_first_then_id_desc
    (Dashboard.sortedHistoryEvents historyEvents).
Proof.
  intros Hids. unfold Dashboard.sortedHistoryEvents.
  apply (StronglySorted_weaken (in_order Dashboard.compare_history) _
           Dashboard.has_event_id).
  - intros a b [ida [Ea Ha]] [idb [Eb Hb]] Hord. unfold in_order in Hord.
    rewrite (compare_history_in_order a b ida idb) in Hord by auto.
    unfold Dashboard.newest_first_then_id_desc.
    destruct Hord as [H|[H L]]; [now left|right].
    split; [exact H|]. exists ida, idb. auto.
  - rewrite Forall_forall in *. intros e He. apply Hids.
    now apply sort_In in He.
  - apply (sort_sorted Dashboard.compare_history Dashboard.has_event_id).
    + apply compare_history_total.
    + apply compare_history_trans.
    + exact Hids.
Qed.

Lemma order_by_created_at_desc_sorted
    (rows : list Stored.LearnerActivityEvent) :
  StronglySorted (fun a b => Stored.created_at b <= Stored.created_at a)
    (order_by_created_at_desc rows).
Proof.
  unfold order_by_created_at_desc.
  apply (StronglySorted_weaken
           (in_order (fun a b => Stored.created_at b - Stored.created_at a))
           _ (fun _ => True)).
  - intros a b _ _ H. unfold in_order in H. lia.
  - apply Forall_forall. trivial.
  - apply (sort_sorted _ (fun _ => True)); try (intros; lia).
    apply Forall_forall. trivial.
Qed.

End HistoryFacts.

(** C4, as the code has it. For a limit that is not negative,
    [getLearnerHistory] returns at most [limit] rows of the learner in the
    course (before the bound, when one is given), newest first: its only
    sort key is [createdAt], and it does not order rows of one instant by
    event id. The tie-break by event id, greater id first, is the
    dashboard's: [sortedHistoryEvents] rearranges the events it is given,
    each carrying its id, newest first and, within one instant, by id
    descending. *)
Theorem getLearnerHistory_newest_first
    (table : list Stored.LearnerActivityEvent) (userId courseId : string)
    (limit : Z) (before : option Date)
    (historyEvents : list Dashboard.ActivityLearner) :
  0 <= limit ->
  Forall Dashboard.has_event_id historyEvents ->
  (exists rows,
      getLearnerHistory table userId courseId limit before = Some rows
      /\ StronglySorted (fun a b => StatusRow.createdAt b <= StatusRow.createdAt a) rows
      /\ Z.of_nat (List.length rows) <= limit
      /\ (forall r, In r rows ->
            exists e, In e table
                      /\ history_where userId courseId before e = true
                      /\ r = select_history_columns e))
  /\ Permutation historyEvents (Dashboard.sortedHistoryEvents historyEvents)
  /\ StronglySorted Dashboard.newest_first_then_id_desc
       (Dashboard.sortedHistoryEvents historyEvents).
Proof.
  intros Hlimit Hids. split; [|split].
  - unfold getLearnerHistory.
    destruct (limit <? 0) eqn:El; [apply Z.ltb_lt in El; lia|].
    eexists. split; [reflexivity|]. split; [|split].
    + apply (StronglySorted_map
               (fun a b => Stored.created_at b <= Stored.created_at a)).
      * intros a b H. exact H.
      * apply StronglySorted_firstn, order_by_created_at_desc_sorted.
    + rewrite length_map, length_firstn. lia.
    + intros r Hr. apply in_map_iff in Hr. destruct Hr as [e [<- He]].
      apply firstn_In in He. apply sort_In in He.
      apply filter_In in He. destruct He as [Hin Hw].
      exists e. auto.
  - apply sort_perm.
  - now apply sortedHistoryEvents_sorted.
Qed.

Lemma getLearnerHistory_newest_first_witness :
  getLearnerHistory
    [example_stored "id-0" "video.play" 100;
     example_stored "id-1" "video.pause" 300;
     example_stored "id-2" "quiz.fail" 200] "u-1" "c-1" 2 None
  = Some (map select_history_columns
            [example_stored "id-1" "video.pause" 300;
             example_stored "id-2" "quiz.fail" 200])
  /\ Dashboard.sortedHistoryEvents
       [Dashboard.example_event "id-1" 100; Dashboard.example_event "id-3" 200;
        Dashboard.example_event "id-2" 100; Dashboard.example_event "id-4" 200]
     = [Dashboard.example_event "id-4" 200; Dashboard.example_event "id-3" 200;
        Dashboard.example_event "id-2" 100; Dashboard.example_event "id-1" 100].
Proof.
  destruct (getLearnerHistory_newest_first
              [example_stored "id-0" "video.play" 100;
               example_stored "id-1" "video.pause" 300;
               example_stored "id-2" "quiz.fail" 200] "u-1" "c-1" 2 None
              [Dashboard.example_event "id-1" 100;
               Dashboard.example_event "id-3" 200;
               Dashboard.example_event "id-2" 100;
               Dashboard.example_event "id-4" 200])
    as [[rows [Hrows _]] _].
  - lia.
  - repeat constructor; eexists; (split; [reflexivity|discriminate]).
  - split; reflexivity.
Defined.

(** C4 as the specification words it fails on two rows of one instant: the
    query returns them in the order of the table, whichever it is, so with
    the smaller event id first when the table has it first. *)
Lemma getLearnerHistory_tie_counterexample :
  let a := example_stored "id-a" "video.play" 100 in
  let b := example_stored "id-b" "video.pause" 100 in
  getLearnerHistory [a; b] "u-1" "c-1" 40 None
  = Some [select_history_columns a; select_history_columns b]
  /\ getLearnerHistory [b; a] "u-1" "c-1" 40 None
     = Some [select_history_columns b; select_history_columns a]
  /\ StatusRow.createdAt (select_history_columns a)
     = StatusRow.createdAt (select_history_columns b)
  /\ JsString.lt (StatusRow.eventId (select_history_columns a))
       (StatusRow.eventId (select_history_columns b)) = true.
Proof.
  cbv zeta. repeat split.
Qed.

(* ===================================================================== *)
(** * Properties of the event buffer *)
(* ===================================================================== *)

Module TelemetryFacts.
Import Telemetry.

Section BufferFacts.
Variable isBrowser : bool.
Variable now_iso : nat -> string.

Lemma stamp_all_length (batch : list TelemetryEvent) (reads : nat) :
  List.length (fst (stamp_all now_iso batch reads)) = List.length batch.
Proof.
  revert reads. induction batch as [|event rest IH]; intros reads; simpl.
  - reflexivity.
  - destruct (stamp now_iso event reads) as [event' reads1].
    specialize (IH reads1).
    destruct (stamp_all now_iso rest reads1) as [rest' reads2].
    simpl in *. now rewrite IH.
Qed.

(** Every event of a request carries an [occurredAt], and is otherwise the
    event that was queued. *)
Lemma stamp_all_stamped (batch : list TelemetryEvent) (reads : nat) :
  Forall2 (fun queued sent =>
             eventType sent = eventType queued
             /\ courseId sent = courseId queued
             /\ payload sent = payload queued
             /\ occurredAt sent <> None
             /\ (occurredAt queued <> None -> sent = queued))
    batch (fst (stamp_all now_iso batch reads)).
Proof.
  revert reads. induction batch as [|event rest IH]; intros reads; simpl.
  - constructor.
  - destruct (stamp now_iso event reads) as [event' reads1] eqn:Es.
    specialize (IH reads1).
    destruct (stamp_all now_iso rest reads1) as [rest' reads2].
    simpl in *. constructor; [|exact IH].
    unfold stamp in Es. destruct (occurredAt event) eqn:Eo.
    + injection Es as <- <-. rewrite Eo. repeat split; congruence.
    + injection Es as <- <-. simpl. repeat split; congruence.
Qed.

(** [flushBuffer] when it has something to send and a token to send it
    with. *)
Lemma flushBuffer_sends (s : State) (token : string) :
  currentToken s = Some token -> token <> "" -> buffer s <> [] ->
  flushBuffer now_iso s
  = {| currentToken := currentToken s;
       buffer := [];
       flushTimer := flushTimer s;
       requests :=
         (requests s ++
          [{| events := fst (stamp_all now_iso (buffer s) (clock_reads s));
              authorization := "Bearer " ++ token |}])%list;
       clock_reads := snd (stamp_all now_iso (buffer s) (clock_reads s));
       timeouts_set := timeouts_set s |}.
Proof.
  intros Et Hne Hb. unfold flushBuffer. rewrite Et.
  apply truthy_iff in Hne. rewrite Hne.
  destruct (buffer s) as [|e rest] eqn:Eb; [contradiction|]. simpl.
  destruct (stamp now_iso e (clock_reads s)) as [e' reads1].
  destruct (stamp_all now_iso rest reads1) as [rest' reads2]. reflexivity.
Qed.

Lemma flushBuffer_buffer (s : State) :
  currentToken (flushBuffer now_iso s) = currentToken s
  /\ (buffer (flushBuffer now_iso s) = buffer s
      \/ buffer (flushBuffer now_iso s) = []).
Proof.
  unfold flushBuffer. destruct (currentToken s) as [token|] eqn:Et; [|auto].
  destruct (negb (truthy token) || (List.length (buffer s) =? 0)%nat);
    [auto|].
  destruct (stamp_all now_iso (buffer s) (clock_reads s)). simpl. auto.
Qed.

Lemma invariant_empty (s : State) : buffer s = [] -> invariant isBrowser s.
Proof.
  intros E. unfold invariant. rewrite E. split.
  - intros H. now contradiction H.
  - unfold MAX_BUFFER_SIZE. simpl. lia.
Qed.

Lemma invariant_flushBuffer (s : State) :
  invariant isBrowser s -> invariant isBrowser (flushBuffer now_iso s).
Proof.
  intros Hinv.
  destruct (flushBuffer_buffer s) as [Etok [Ebuf|Ebuf]].
  - unfold invariant in *. now rewrite Etok, Ebuf.
  - now apply invariant_empty.
Qed.

Lemma invariant_step (s s' : State) :
  invariant isBrowser s -> step isBrowser now_iso s s' ->
  invariant isBrowser s'.
Proof.
  intros Hinv Hstep. pose proof Hinv as [Hq Hlen].
  destruct Hstep as [token s|event s|s pending Hp].
  - unfold updateTelemetryAccessToken.
    destruct (token_set token) eqn:Et.
    + unfold invariant; simpl. split; [|exact Hlen].
      intros Hne. split; [exact Et|now apply Hq].
    + now apply invariant_empty.
  - unfold recordTelemetryEvent.
    destruct (token_set (currentToken s)) eqn:Et; cbn [negb orb];
      [|exact Hinv].
    destruct (negb isBrowser) eqn:Eb; [exact Hinv|].
    apply negb_false_iff in Eb.
    destruct (MAX_BUFFER_SIZE <=? List.length (buffer (push event s)))%nat
      eqn:El.
    + apply invariant_empty.
      destruct (currentToken s) as [token|] eqn:Ec; [|discriminate Et].
      rewrite (flushBuffer_sends (push event s) token); auto.
      * now apply truthy_iff.
      * cbn [push buffer]. now destruct (buffer s).
    + apply Nat.leb_gt in El. unfold scheduleFlush.
      assert (Hinv1 : invariant isBrowser (push event s)).
      { split; [auto|exact El]. }
      destruct (flushTimer (push event s)); [exact Hinv1|].
      destruct (negb isBrowser); exact Hinv1.
  - unfold flush_timer_callback. apply invariant_flushBuffer.
    exact Hinv.
Qed.

Lemma reachable_invariant (s : State) :
  reachable isBrowser now_iso s -> invariant isBrowser s.
Proof.
  induction 1 as [|s s' _ IH Hstep].
  - now apply invariant_empty.
  - exact (invariant_step s s' IH Hstep).
Qed.

Lemma reachable_record_all (batch : list TelemetryEvent) (s : State) :
  reachable isBrowser now_iso s ->
  reachable isBrowser now_iso (record_all isBrowser now_iso batch s).
Proof.
  revert s. induction batch as [|event rest IH]; intros s Hs; simpl.
  - exact Hs.
  - apply IH. eapply reachable_step; [exact Hs|apply step_record].
Qed.

End BufferFacts.

(** C9. In any state the module can be in, with a session token set, the
    call of [recordTelemetryEvent] that brings the queue to its maximum
    size of 20 events (the 20th event into a queue of 19) flushes at once:
    when the call returns the queue is empty and one request has been
    started with the whole queue, the new event last, as its batch, under
    the token. No timeout is set or awaited for it: the flush is part of
    the call, and the timer variable is as it was. *)
Theorem recordTelemetryEvent_flush_on_size
    (isBrowser : bool) (now_iso : nat -> string)
    (s : State) (event : TelemetryEvent) (token : string) :
  reachable isBrowser now_iso s ->
  currentToken s = Some token -> token <> "" ->
  (MAX_BUFFER_SIZE <= List.length (buffer s) + 1)%nat ->
  let s' := recordTelemetryEvent isBrowser now_iso event s in
  let batch := fst (stamp_all now_iso (buffer s ++ [event]) (clock_reads s)) in
  List.length (buffer s) = 19%nat
  /\ buffer s' = []
  /\ requests s'
     = (requests s
        ++ [{| events := batch; authorization := "Bearer " ++ token |}])%list
  /\ List.length batch = MAX_BUFFER_SIZE
  /\ Forall2 (fun queued sent =>
                eventType sent = eventType queued
                /\ courseId sent = courseId queued
                /\ payload sent = payload queued
                /\ occurredAt sent <> None
                /\ (occurredAt queued <> None -> sent = queued))
       (buffer s ++ [event]) batch
  /\ flushTimer s' = flushTimer s
  /\ timeouts_set s' = timeouts_set s
  /\ currentToken s' = currentToken s.
Proof.
  intros Hreach Et Hne Hfull. cbv zeta.
  destruct (reachable_invariant isBrowser now_iso s Hreach) as [Hq Hlen].
  assert (H19 : List.length (buffer s) = 19%nat)
    by (unfold MAX_BUFFER_SIZE in *; lia).
  assert (Hb : isBrowser = true).
  { apply Hq. intros E. rewrite E in H19. discriminate. }
  assert (Hrec : recordTelemetryEvent isBrowser now_iso event s
                 = flushBuffer now_iso (push event s)).
  { unfold recordTelemetryEvent. rewrite Et, Hb. cbn [token_set].
    rewrite (proj2 (truthy_iff token) Hne). cbn [negb orb push buffer].
    rewrite length_app, H19. reflexivity. }
  rewrite Hrec, (flushBuffer_sends now_iso (push event s) token); auto;
    [|cbn [push buffer]; now destruct (buffer s)].
  cbn [push buffer requests flushTimer timeouts_set currentToken clock_reads].
  repeat split; auto.
  - rewrite stamp_all_length, length_app, H19. reflexivity.
  - apply stamp_all_stamped.
Qed.

Lemma recordTelemetryEvent_flush_on_size_witness :
  let s19 :=
    record_all true example_now (repeat (example_event "video.play") 19)
      (updateTelemetryAccessToken (Some "token-1") initial) in
  let s20 := recordTelemetryEvent true example_now (example_event "quiz.fail") s19 in
  List.length (buffer s19) = 19%nat
  /\ requests s19 = []
  /\ flushTimer s19 = Some (1%nat, BUFFER_FLUSH_INTERVAL_MS)
  /\ buffer s20 = []
  /\ List.length (requests s20) = 1%nat
  /\ flushTimer s20 = flushTimer s19.
Proof.
  cbv zeta.
  destruct (recordTelemetryEvent_flush_on_size true example_now
              (record_all true example_now
                 (repeat (example_event "video.play") 19)
                 (updateTelemetryAccessToken (Some "token-1") initial))
              (example_event "quiz.fail") "token-1")
    as [H19 [Hbuf [Hreq [_ [_ [Htimer _]]]]]].
  - apply reachable_record_all.
    eapply reachable_step; [apply reachable_initial|apply step_token].
  - reflexivity.
  - discriminate.
  - vm_compute. lia.
  - repeat split; try assumption; try reflexivity.
Defined.

End TelemetryFacts.

(* ===================================================================== *)
(** * Properties of the course view *)
(* ===================================================================== *)

Section CourseViewFacts.

Lemma distinct_In (keys : list string) (k : string) :
  In k (distinct keys) <-> In k keys.
Proof.
  induction keys as [|k0 rest IH]; simpl; [tauto|].
  rewrite filter_In, IH.
  destruct (String.eqb_spec k k0) as [->|Hne]; simpl; intuition congruence.
Qed.

Lemma distinct_NoDup (keys : list string) : NoDup (distinct keys).
Proof.
  induction keys as [|k0 rest IH]; simpl; constructor.
  - rewrite filter_In, String.eqb_refl. simpl. intros [_ H]. discriminate.
  - now apply NoDup_filter.
Qed.

(** The first [n] rows of a list sorted newest first are the [n] most
    recent: what is left out is no newer than what is kept. *)
Lemma firstn_most_recent (n : nat) (rows : list Stored.LearnerActivityEvent) :
  exists rest,
    Permutation rows (firstn n (order_by_created_at_desc rows) ++ rest)
    /\ forall kept left_out,
         In kept (firstn n (order_by_created_at_desc rows)) ->
         In left_out rest ->
         Stored.created_at left_out <= Stored.created_at kept.
Proof.
  exists (skipn n (order_by_created_at_desc rows)). split.
  - rewrite firstn_skipn. apply sort_perm.
  - pose proof (order_by_created_at_desc_sorted rows) as Hs.
    rewrite <- (firstn_skipn n (order_by_created_at_desc rows)) in Hs.
    revert Hs.
    generalize (firstn n (order_by_created_at_desc rows)) as front.
    generalize (skipn n (order_by_created_at_desc rows)) as back.
    intros back front. induction front as [|x front IH]; simpl.
    + intros _ kept left_out [].
    + intros Hs kept left_out [<-|Hin] Hout.
      * inversion Hs as [|? ? _ Hall]; subst.
        rewrite Forall_forall in Hall. apply Hall.
        apply in_or_app. now right.
      * inversion Hs; subst. now apply IH.
Qed.

Lemma left_join_users_userId (users : list Users.User)
    (e : Stored.LearnerActivityEvent) (r : StatusRow.LearnerStatusRow) :
  In r (left_join_users users e) ->
  exists u, r = select_status_columns e u.
Proof.
  unfold left_join_users.
  destruct (filter _ users) as [|u0 matching]; simpl.
  - intros [<-|[]]. now exists None.
  - intros [<-|Hin]; [now exists (Some u0)|].
    apply in_map_iff in Hin. destruct Hin as [u [<- _]]. now exists (Some u).
Qed.

Lemma left_join_users_nonempty (users : list Users.User)
    (e : Stored.LearnerActivityEvent) :
  left_join_users users e <> [].
Proof.
  unfold left_join_users.
  destruct (filter _ users) as [|u0 matching]; simpl; discriminate.
Qed.

Lemma ranked_window_In (uid : string)
    (rows : list Stored.LearnerActivityEvent)
    (e : Stored.LearnerActivityEvent) :
  In e (ranked_window uid rows) -> In e rows /\ Stored.user_id e = uid.
Proof.
  unfold ranked_window, partition_of. intros Hin.
  apply firstn_In in Hin. apply sort_In in Hin. apply filter_In in Hin.
  destruct Hin as [Hin Hu]. apply String.eqb_eq in Hu. now split.
Qed.

Lemma ranked_window_nonempty (uid : string)
    (rows : list Stored.LearnerActivityEvent) :
  In uid (map Stored.user_id rows) -> ranked_window uid rows <> [].
Proof.
  intros Hin. apply in_map_iff in Hin. destruct Hin as [e [Hu He]].
  unfold ranked_window.
  assert (Hp : In e (order_by_created_at_desc (partition_of uid rows))).
  { apply sort_In. apply filter_In. split; [exact He|].
    now apply String.eqb_eq. }
  destruct (order_by_created_at_desc (partition_of uid rows));
    [contradiction|]. discriminate.
Qed.

Lemma learner_window_userId (users : list Users.User)
    (table : list Stored.LearnerActivityEvent) (courseId uid : string)
    (r : StatusRow.LearnerStatusRow) :
  In r (learner_window users table courseId uid) ->
  exists e u,
    In e (ranked_window uid (in_course courseId table))
    /\ r = select_status_columns e u
    /\ StatusRow.userId r = uid
    /\ StatusRow.courseId r = courseId.
Proof.
  unfold learner_window. intros Hin. apply in_flat_map in Hin.
  destruct Hin as [e [He Hr]].
  destruct (left_join_users_userId users e r Hr) as [u ->].
  exists e, u. split; [exact He|]. split; [reflexivity|].
  destruct (ranked_window_In _ _ _ He) as [Hc Hu]. simpl.
  split; [exact Hu|].
  unfold in_course in Hc. apply filter_In in Hc.
  destruct Hc as [_ Hc]. now apply String.eqb_eq.
Qed.

Lemma learner_window_nonempty (users : list Users.User)
    (table : list Stored.LearnerActivityEvent) (courseId uid : string) :
  In uid (map Stored.user_id (in_course courseId table)) ->
  learner_window users table courseId uid <> [].
Proof.
  intros Hin. unfold learner_window.
  pose proof (ranked_window_nonempty uid _ Hin) as Hne.
  destruct (ranked_window uid (in_course courseId table)) as [|e rest];
    [contradiction|]. simpl.
  pose proof (left_join_users_nonempty users e) as Hj.
  destruct (left_join_users users e); [contradiction|]. discriminate.
Qed.

Lemma flat_map_nested {A B C : Type} (f : B -> list C) (g : A -> list B)
    (l : list A) :
  flat_map f (flat_map g l) = flat_map (fun x => flat_map f (g x)) l.
Proof.
  induction l as [|x l IH]; simpl; [reflexivity|].
  now rewrite flat_map_app, IH.
Qed.

Lemma flat_map_of_map {A B C : Type} (f : B -> list C) (g : A -> B)
    (l : list A) :
  flat_map f (map g l) = flat_map (fun x => f (g x)) l.
Proof.
  induction l as [|x l IH]; simpl; [reflexivity|]. now rewrite IH.
Qed.

Lemma group_push_new (row : StatusRow.LearnerStatusRow)
    (grouped : list (string * list StatusRow.LearnerStatusRow)) :
  ~ In (StatusRow.userId row) (map fst grouped) ->
  group_push row grouped = (grouped ++ [(StatusRow.userId row, [row])])%list.
Proof.
  induction grouped as [|[key l] rest IH]; simpl; [reflexivity|].
  intros Hnot. destruct (String.eqb_spec key (StatusRow.userId row)) as [E|_].
  - contradiction Hnot. now left.
  - rewrite IH; [reflexivity|]. intros H. apply Hnot. now right.
Qed.

Lemma group_push_last (row : StatusRow.LearnerStatusRow)
    (grouped : list (string * list StatusRow.LearnerStatusRow))
    (l0 : list StatusRow.LearnerStatusRow) :
  ~ In (StatusRow.userId row) (map fst grouped) ->
  group_push row (grouped ++ [(StatusRow.userId row, l0)])%list
  = (grouped ++ [(StatusRow.userId row, l0 ++ [row])])%list.
Proof.
  induction grouped as [|[key l] rest IH]; simpl.
  - intros _. now rewrite String.eqb_refl.
  - intros Hnot. destruct (String.eqb_spec key (StatusRow.userId row)) as [E|_].
    + contradiction Hnot. now left.
    + rewrite IH; [reflexivity|]. intros H. apply Hnot. now right.
Qed.

Lemma fold_group_push_same_key (rows : list StatusRow.LearnerStatusRow)
    (grouped : list (string * list StatusRow.LearnerStatusRow)) (k : string)
    (l0 : list StatusRow.LearnerStatusRow) :
  Forall (fun r => StatusRow.userId r = k) rows ->
  ~ In k (map fst grouped) ->
  fold_left (fun g row => group_push row g) rows
    (grouped ++ [(k, l0)])%list
  = (grouped ++ [(k, l0 ++ rows)])%list.
Proof.
  revert l0. induction rows as [|row rows IH]; intros l0 Hall Hnot; simpl.
  - now rewrite app_nil_r.
  - inversion Hall as [|? ? Hk Hrest]; subst.
    rewrite group_push_last by exact Hnot.
    rewrite IH by assumption. now rewrite <- app_assoc.
Qed.

(** Grouping rows that come learner after learner, each learner once, gives
    the learners' chunks back, in order. *)
Lemma group_chunks (chunk : string -> list StatusRow.LearnerStatusRow)
    (done todo : list string) :
  NoDup (done ++ todo) ->
  (forall k, In k todo ->
     chunk k <> [] /\ Forall (fun r => StatusRow.userId r = k) (chunk k)) ->
  fold_left (fun g row => group_push row g) (flat_map chunk todo)
    (map (fun k => (k, chunk k)) done)
  = map (fun k => (k, chunk k)) (done ++ todo).
Proof.
  revert done. induction todo as [|k todo IH]; intros done Hnd Hchunk; simpl.
  - now rewrite app_nil_r.
  - rewrite fold_left_app.
    destruct (Hchunk k (or_introl eq_refl)) as [Hne Hall].
    assert (Hnot : ~ In k (map fst (map (fun k => (k, chunk k)) done))).
    { rewrite map_map. simpl. rewrite map_id.
      apply NoDup_remove_2 in Hnd. intros H. apply Hnd.
      apply in_or_app. now left. }
    destruct (chunk k) as [|row rows] eqn:Ec; [contradiction|].
    pose proof (Forall_inv Hall) as Hk. simpl in Hk.
    pose proof (Forall_inv_tail Hall) as Hrest. simpl.
    rewrite group_push_new by (rewrite Hk; exact Hnot).
    rewrite Hk.
    rewrite fold_group_push_same_key by assumption. simpl.
    replace (map (fun k0 => (k0, chunk k0)) done ++ [(k, row :: rows)])%list
      with (map (fun k0 => (k0, chunk k0)) (done ++ [k])).
    + rewrite IH.
      * now rewrite <- app_assoc.
      * now rewrite <- app_assoc.
      * intros k' Hin. apply Hchunk. now right.
    + rewrite map_app. simpl. now rewrite Ec.
Qed.

Lemma course_view_by_learner
    (users : list Users.User) (table : list Stored.LearnerActivityEvent)
    (courseId : string) :
  getLatestStatusesForCourse users table courseId
  = flat_map (fun uid => push_summary (learner_window users table courseId uid))
      (distinct (map Stored.user_id (in_course courseId table))).
Proof.
  unfold getLatestStatusesForCourse, windowedEvents, ranked.
  rewrite flat_map_nested.
  change (fun x => flat_map (left_join_users users)
                     (ranked_window x (in_course courseId table)))
    with (learner_window users table courseId).
  unfold group_by_userId.
  rewrite (group_chunks (learner_window users table courseId) []).
  - simpl. now rewrite flat_map_of_map.
  - simpl. apply distinct_NoDup.
  - intros k Hin. rewrite distinct_In in Hin. split.
    + now apply learner_window_nonempty.
    + apply Forall_forall. intros r Hr.
      destruct (learner_window_userId _ _ _ _ _ Hr) as [e [u [_ [_ [Hu _]]]]].
      exact Hu.
Qed.

(** The summary of a learner's window: the row of the window with the
    highest priority and, among those, the most recent. *)
Lemma push_summary_best (events : list StatusRow.LearnerStatusRow) :
  events <> [] ->
  exists s,
    push_summary events = [s]
    /\ In s events
    /\ (forall e, In e events -> priority e <= priority s)
    /\ (forall e, In e events -> priority e = priority s ->
          StatusRow.createdAt e <= StatusRow.createdAt s).
Proof.
  intros Hne. unfold push_summary.
  destruct (deriveStatusFromEvents_highest_band events Hne)
    as [s [-> Hs]]. now exists s.
Qed.

Lemma course_view_In (users : list Users.User)
    (table : list Stored.LearnerActivityEvent) (courseId : string)
    (s : StatusRow.LearnerStatusRow) :
  In s (getLatestStatusesForCourse users table courseId) <->
  exists uid,
    In uid (map Stored.user_id (in_course courseId table))
    /\ push_summary (learner_window users table courseId uid) = [s].
Proof.
  rewrite course_view_by_learner, in_flat_map. split.
  - intros [uid [Hin Hs]]. rewrite distinct_In in Hin.
    exists uid. split; [exact Hin|].
    destruct (push_summary_best _
                (learner_window_nonempty users table courseId uid Hin))
      as [s' [E _]].
    rewrite E in Hs |- *. destruct Hs as [->|[]]. reflexivity.
  - intros [uid [Hin Hs]]. exists uid. rewrite distinct_In.
    split; [exact Hin|]. rewrite Hs. now left.
Qed.




Lemma NoDup_map_injective {A B : Type} (f : A -> B) (l : list A) (a b : A) :
  NoDup (map f l) -> In a l -> In b l -> f a = f b -> a = b.
Proof.
  induction l as [|x l IH]; simpl; [tauto|].
  intros Hnd Ha Hb E. inversion Hnd as [|? ? Hnot Hrest]; subst.
  destruct Ha as [->|Ha], Hb as [->|Hb]; auto.
  - contradiction Hnot. rewrite E. now apply in_map.
  - contradiction Hnot. rewrite <- E. now apply in_map.
Qed.

End CourseViewFacts.



(** X3. The window the ranked query keeps for a learner holds at most 20
    rows, all of them rows of that learner in the table given, and the 20
    most recent: a row of the learner that is left out is no newer than
    any row kept. *)
Theorem ranked_window_most_recent
    (uid : string) (rows : list Stored.LearnerActivityEvent) :
  (List.length (ranked_window uid rows) <= 20)%nat
  /\ (forall e, In e (ranked_window uid rows) ->
        In e rows /\ Stored.user_id e = uid)
  /\ exists left_out,
       Permutation (partition_of uid rows)
         (ranked_window uid rows ++ left_out)
       /\ forall kept older,
            In kept (ranked_window uid rows) -> In older left_out ->
            Stored.created_at older <= Stored.created_at kept.
Proof.
  split; [|split].
  - unfold ranked_window, WINDOW_SIZE. rewrite length_firstn. lia.
  - apply ranked_window_In.
  - apply firstn_most_recent.
Qed.



(** X5. When the rows of a window have pairwise distinct timestamps, the
    aggregator's answer does not depend on the order in which the rows
    arrive: any rearrangement of the window gives the same summary. *)
Theorem deriveStatusFromEvents_order_independent
    (events events' : list StatusRow.LearnerStatusRow) :
  Permutation events events' ->
  NoDup (map StatusRow.createdAt events) ->
  deriveStatusFromEvents events = deriveStatusFromEvents events'.
Proof.
  intros Hperm Hnd.
  destruct events as [|e0 rest] eqn:Eev.
  - apply Permutation_nil in Hperm. now subst.
  - rewrite <- Eev in *.
    assert (Hne : events <> []) by (rewrite Eev; discriminate).
    assert (Hne' : events' <> []).
    { intros ->. apply Permutation_sym, Permutation_nil in Hperm.
      contradiction. }
    destruct (deriveStatusFromEvents_highest_band events Hne)
      as [r [-> [Hin [Hmax Hrec]]]].
    destruct (deriveStatusFromEvents_highest_band events' Hne')
      as [r' [-> [Hin' [Hmax' Hrec']]]].
    f_equal.
    assert (Hr' : In r' events)
      by (eapply Permutation_in; [apply Permutation_sym|]; eassumption).
    assert (Hr : In r events') by (eapply Permutation_in; eassumption).
    pose proof (Hmax r' Hr'). pose proof (Hmax' r Hr).
    assert (Hp : priority r = priority r') by lia.
    pose proof (Hrec r' Hr' (eq_sym Hp)).
    pose proof (Hrec' r Hr Hp).
    apply (NoDup_map_injective StatusRow.createdAt events); auto. lia.
Qed.

Lemma deriveStatusFromEvents_order_independent_witness :
  deriveStatusFromEvents
    [example_row "e1" "video.pause" (Some "attention_drift") 100;
     example_row "e2" "idle.start" (Some "attention_drift") 200]
  = deriveStatusFromEvents
      [example_row "e2" "idle.start" (Some "attention_drift") 200;
       example_row "e1" "video.pause" (Some "attention_drift") 100].
Proof.
  apply deriveStatusFromEvents_order_independent.
  - apply perm_swap.
  - simpl. repeat constructor; simpl; intuition discriminate.
Defined.

(* ===================================================================== *)
(** * More properties of the event store *)
(* ===================================================================== *)

Section IngestionFacts.
Variable new_Date : nat -> Date.
Variable default_event_id : nat -> string.

Lemma build_rows_app (userId : string)
    (first second : list Input.TelemetryEventInput) (reads : nat) :
  build_rows new_Date userId (first ++ second) reads
  = let '(rows1, reads1) := build_rows new_Date userId first reads in
    let '(rows2, reads2) := build_rows new_Date userId second reads1 in
    ((rows1 ++ rows2)%list, reads2).
Proof.
  revert reads. induction first as [|event rest IH]; intros reads; simpl.
  - now destruct (build_rows new_Date userId second reads).
  - destruct (build_row new_Date userId event reads) as [row reads0].
    rewrite IH.
    destruct (build_rows new_Date userId rest reads0) as [rows1 reads1].
    now destruct (build_rows new_Date userId second reads1).
Qed.

Lemma createMany_app (first second table : list Stored.LearnerActivityEvent) :
  createMany default_event_id (first ++ second) table
  = createMany default_event_id second
      (createMany default_event_id first table).
Proof.
  revert table. induction first as [|row rest IH]; intros table; simpl;
    [reflexivity|apply IH].
Qed.

Lemma build_rows_nil_iff (userId : string)
    (events : list Input.TelemetryEventInput) (reads : nat) :
  fst (build_rows new_Date userId events reads) = [] <-> events = [].
Proof.
  destruct events as [|event rest]; simpl; [tauto|].
  destruct (build_row new_Date userId event reads) as [row reads0].
  destruct (build_rows new_Date userId rest reads0). simpl.
  split; discriminate.
Qed.

(** [recordActivityEvents] without its shortcut for the empty batch, which
    changes nothing. *)
Lemma recordActivityEvents_unfold (userId : string)
    (events : list Input.TelemetryEventInput) (s : Server) :
  recordActivityEvents new_Date default_event_id userId events s
  = {| learner_activity_events :=
         createMany default_event_id
           (fst (build_rows new_Date userId events (clock_reads s)))
           (learner_activity_events s);
       clock_reads := snd (build_rows new_Date userId events (clock_reads s)) |}.
Proof.
  unfold recordActivityEvents. destruct events as [|event rest].
  - simpl. now destruct s.
  - now destruct (build_rows new_Date userId (event :: rest) (clock_reads s)).
Qed.

Lemma recordActivityEvents_app (userId : string)
    (first second : list Input.TelemetryEventInput) (s : Server) :
  recordActivityEvents new_Date default_event_id userId (first ++ second) s
  = recordActivityEvents new_Date default_event_id userId second
      (recordActivityEvents new_Date default_event_id userId first s).
Proof.
  rewrite !recordActivityEvents_unfold. simpl.
  rewrite build_rows_app.
  destruct (build_rows new_Date userId first (clock_reads s))
    as [rows1 reads1]. simpl.
  destruct (build_rows new_Date userId second reads1) as [rows2 reads2].
  simpl. now rewrite createMany_app.
Qed.

Lemma build_rows_fields (userId : string)
    (events : list Input.TelemetryEventInput) (reads : nat) :
  Forall2 (row_of_event userId) events
    (fst (build_rows new_Date userId events reads)).
Proof.
  revert reads. induction events as [|event rest IH]; intros reads; simpl.
  - constructor.
  - destruct (build_row new_Date userId event reads) as [row reads0] eqn:Er.
    specialize (IH reads0).
    destruct (build_rows new_Date userId rest reads0) as [rows reads1].
    simpl in *. constructor; [|exact IH].
    unfold build_row in Er.
    destruct (Input.occurredAt event); injection Er as <- <-;
      unfold row_of_event; simpl; repeat split; reflexivity.
Qed.

Lemma build_rows_reads (userId : string)
    (events : list Input.TelemetryEventInput) (reads : nat) :
  snd (build_rows new_Date userId events reads)
  = (reads + List.length (without_occurredAt events))%nat.
Proof.
  revert reads. induction events as [|event rest IH]; intros reads; simpl.
  - lia.
  - destruct (build_row new_Date userId event reads) as [row reads0] eqn:Er.
    specialize (IH reads0).
    destruct (build_rows new_Date userId rest reads0) as [rows reads1].
    simpl in *. rewrite IH. unfold build_row in Er.
    destruct (Input.occurredAt event); injection Er as <- <-; simpl; lia.
Qed.




End IngestionFacts.


Lemma row_of_event_with_event_id (userId id : string)
    (event : Input.TelemetryEventInput) (row : Stored.LearnerActivityEvent) :
  row_of_event userId event row ->
  row_of_event userId event (with_event_id id row).
Proof. unfold row_of_event. simpl. tauto. Qed.

(** X6. Sending a batch in two requests stores what sending it in one
    request stores: recording [first ++ second] leaves the server as
    recording [first] and then [second] does, table and clock alike. *)
Theorem recordActivityEvents_batches_compose
    (new_Date : nat -> Date) (default_event_id : nat -> string)
    (userId : string) (first second : list Input.TelemetryEventInput)
    (s : Server) :
  recordActivityEvents new_Date default_event_id userId (first ++ second) s
  = recordActivityEvents new_Date default_event_id userId second
      (recordActivityEvents new_Date default_event_id userId first s).
Proof. apply recordActivityEvents_app. Qed.

(** X7. Each row that [recordActivityEvents] appends carries the user id
    given by the caller, the course, module, topic, payload and event type
    of its event, the type as it was sent, and the status and reason the
    classifier gives for that type and payload. *)
Theorem recordActivityEvents_rows
    (new_Date : nat -> Date) (default_event_id : nat -> string)
    (userId : string) (events : list Input.TelemetryEventInput) (s : Server) :
  exists appended,
    learner_activity_events
      (recordActivityEvents new_Date default_event_id userId events s)
    = (learner_activity_events s ++ appended)%list
    /\ Forall2 (row_of_event userId) events appended.
Proof.
  rewrite recordActivityEvents_unfold. simpl.
  destruct (createMany_appends default_event_id
              (fst (build_rows new_Date userId events (clock_reads s)))
              (learner_activity_events s)) as [stored [E Hids]].
  exists stored. split; [exact E|].
  eapply Forall2_compose;
    [|apply (build_rows_fields new_Date userId events (clock_reads s))
     |exact Hids].
  intros event row kept Hrow [id ->].
  now apply row_of_event_with_event_id.
Qed.

(** X8. The server's clock is read once for each event of the batch that
    has no [occurredAt], and not at all for the others. *)
Theorem recordActivityEvents_clock_reads
    (new_Date : nat -> Date) (default_event_id : nat -> string)
    (userId : string) (events : list Input.TelemetryEventInput) (s : Server) :
  clock_reads (recordActivityEvents new_Date default_event_id userId events s)
  = (clock_reads s + List.length (without_occurredAt events))%nat.
Proof.
  rewrite recordActivityEvents_unfold. simpl. apply build_rows_reads.
Qed.



Section HistoryPageFacts.

Lemma history_rows (table : list Stored.LearnerActivityEvent)
    (userId courseId : string) (limit : Z) (before : option Date) :
  0 <= limit ->
  getLearnerHistory table userId courseId limit before
  = Some (map select_history_columns
            (firstn (Z.to_nat limit)
               (order_by_created_at_desc
                  (filter (history_where userId courseId before) table)))).
Proof.
  intros Hl. unfold getLearnerHistory.
  destruct (limit <? 0) eqn:E; [apply Z.ltb_lt in E; lia|reflexivity].
Qed.

Lemma history_page_sorted (table : list Stored.LearnerActivityEvent)
    (userId courseId : string) (limit : Z) (before : option Date)
    (page : list StatusRow.LearnerStatusRow) :
  getLearnerHistory table userId courseId limit before = Some page ->
  StronglySorted (fun a b => StatusRow.createdAt b <= StatusRow.createdAt a) page
  /\ forall r, In r page ->
       In r (history_candidates table userId courseId before).
Proof.
  unfold getLearnerHistory. destruct (limit <? 0); [discriminate|].
  intros [= <-]. split.
  - apply (StronglySorted_map
             (fun a b => Stored.created_at b <= Stored.created_at a)).
    + intros a b H. exact H.
    + apply StronglySorted_firstn, order_by_created_at_desc_sorted.
  - intros r Hr. apply in_map_iff in Hr. destruct Hr as [e [<- He]].
    apply firstn_In in He. apply sort_In in He.
    unfold history_candidates. now apply in_map.
Qed.

Lemma history_candidates_before (table : list Stored.LearnerActivityEvent)
    (userId courseId : string) (bound : Date) (r : StatusRow.LearnerStatusRow) :
  In r (history_candidates table userId courseId (Some bound)) ->
  StatusRow.createdAt r < bound
  /\ StatusRow.userId r = userId /\ StatusRow.courseId r = courseId.
Proof.
  unfold history_candidates. intros Hr. apply in_map_iff in Hr.
  destruct Hr as [e [<- He]]. apply filter_In in He. destruct He as [_ Hw].
  unfold history_where in Hw.
  apply andb_true_iff in Hw. destruct Hw as [Hw Hb].
  apply andb_true_iff in Hw. destruct Hw as [Hu Hc].
  apply String.eqb_eq in Hu. apply String.eqb_eq in Hc.
  apply Z.ltb_lt in Hb. simpl. auto.
Qed.

Lemma sorted_last_oldest (page : list StatusRow.LearnerStatusRow)
    (r d : StatusRow.LearnerStatusRow) :
  StronglySorted (fun a b => StatusRow.createdAt b <= StatusRow.createdAt a) page ->
  In r page ->
  StatusRow.createdAt (last page d) <= StatusRow.createdAt r.
Proof.
  induction 1 as [|x page Hs IH Hx]; simpl; [tauto|].
  intros [->|Hin].
  - destruct page as [|y page]; [lia|].
    rewrite Forall_forall in Hx. apply Hx.
    clear. revert y. induction page as [|z page IH]; intros y; simpl.
    + now left.
    + right. apply IH.
  - destruct page as [|y page]; [contradiction|]. now apply IH.
Qed.

Lemma Forall2_In_left {A B : Type} (R : A -> B -> Prop) (la : list A)
    (lb : list B) (a : A) :
  Forall2 R la lb -> In a la -> exists b, In b lb /\ R a b.
Proof.
  induction 1 as [|x y la lb Hxy _ IH]; simpl; [tauto|].
  intros [->|Hin].
  - exists y. split; [now left|exact Hxy].
  - destruct (IH Hin) as [b [Hb Hab]]. exists b. split; [now right|exact Hab].
Qed.

End HistoryPageFacts.

(** X10. For a limit that is not negative, [getLearnerHistory] returns the
    most recent candidates: as many rows as the limit allows and the
    candidates provide, all of them candidates of the query, and no
    candidate left out is newer than a row returned. *)
Theorem getLearnerHistory_most_recent
    (table : list Stored.LearnerActivityEvent) (userId courseId : string)
    (limit : Z) (before : option Date) :
  0 <= limit ->
  exists page left_out,
    getLearnerHistory table userId courseId limit before = Some page
    /\ List.length page
       = Nat.min (Z.to_nat limit)
           (List.length (history_candidates table userId courseId before))
    /\ Permutation (history_candidates table userId courseId before)
         (page ++ left_out)
    /\ forall kept older,
         In kept page -> In older left_out ->
         StatusRow.createdAt older <= StatusRow.createdAt kept.
Proof.
  intros Hl. rewrite (history_rows _ _ _ _ _ Hl).
  destruct (firstn_most_recent (Z.to_nat limit)
              (filter (history_where userId courseId before) table))
    as [rest [Hperm Hold]].
  eexists. exists (map select_history_columns rest).
  split; [reflexivity|]. split; [|split].
  - rewrite length_map, length_firstn. unfold history_candidates.
    rewrite length_map. unfold order_by_created_at_desc.
    now rewrite <- (Permutation_length
                      (sort_perm
                         (fun a b => Stored.created_at b - Stored.created_at a)
                         (filter (history_where userId courseId before) table))).
  - unfold history_candidates. rewrite <- map_app.
    now apply Permutation_map.
  - intros kept older Hk Ho.
    apply in_map_iff in Hk. destruct Hk as [k [<- Hk]].
    apply in_map_iff in Ho. destruct Ho as [o [<- Ho]].
    simpl. now apply Hold.
Qed.

Lemma getLearnerHistory_most_recent_witness :
  exists page left_out : list StatusRow.LearnerStatusRow,
    getLearnerHistory
      [example_stored "id-0" "video.play" 100;
       example_stored "id-1" "video.pause" 300;
       example_stored "id-2" "quiz.fail" 200] "u-1" "c-1" 2 None = Some page
    /\ List.length page = 2%nat
    /\ List.length left_out = 1%nat.
Proof.
  destruct (getLearnerHistory_most_recent
              [example_stored "id-0" "video.play" 100;
               example_stored "id-1" "video.pause" 300;
               example_stored "id-2" "quiz.fail" 200] "u-1" "c-1" 2 None)
    as [page [left_out [Hp [Hlen [Hperm _]]]]]; [lia|].
  exists page, left_out. split; [exact Hp|]. split; [exact Hlen|].
  apply Permutation_length in Hperm. rewrite length_app, Hlen in Hperm.
  simpl in Hperm. lia.
Defined.

(** X11. Paging by cursor never repeats a row: every row of the page asked
    for with [before] set to the [createdAt] of the last row of a page is
    strictly older than that cursor, hence than every row of that page. A
    row that shares the cursor's instant is not returned by the next page
    either. *)
Theorem getLearnerHistory_next_page_older
    (table : list Stored.LearnerActivityEvent) (userId courseId : string)
    (limit limit' : Z) (before : option Date)
    (page page' : list StatusRow.LearnerStatusRow) (r r' : StatusRow.LearnerStatusRow) :
  getLearnerHistory table userId courseId limit before = Some page ->
  In r page ->
  getLearnerHistory table userId courseId limit'
    (Some (StatusRow.createdAt (last page r))) = Some page' ->
  In r' page' ->
  StatusRow.createdAt r' < StatusRow.createdAt (last page r)
  /\ StatusRow.createdAt (last page r) <= StatusRow.createdAt r
  /\ r' <> r.
Proof.
  intros Hp Hr Hp' Hr'.
  destruct (history_page_sorted _ _ _ _ _ _ Hp) as [Hs _].
  destruct (history_page_sorted _ _ _ _ _ _ Hp') as [_ Hc'].
  destruct (history_candidates_before _ _ _ _ _ (Hc' r' Hr')) as [Hlt _].
  pose proof (sorted_last_oldest page r r Hs Hr) as Hle.
  repeat split; try assumption. intros ->. lia.
Qed.

Lemma getLearnerHistory_next_page_older_witness :
  let table :=
    [example_stored "id-0" "video.play" 100;
     example_stored "id-1" "video.pause" 300;
     example_stored "id-2" "quiz.fail" 200;
     example_stored "id-3" "quiz.retry" 200] in
  getLearnerHistory table "u-1" "c-1" 2 None
  = Some (map select_history_columns
            [example_stored "id-1" "video.pause" 300;
             example_stored "id-2" "quiz.fail" 200])
  /\ getLearnerHistory table "u-1" "c-1" 2 (Some 200)
     = Some (map select_history_columns
               [example_stored "id-0" "video.play" 100])
  /\ 100 < 200.
Proof.
  cbv zeta. split; [reflexivity|]. split; [reflexivity|].
  apply (getLearnerHistory_next_page_older
           [example_stored "id-0" "video.play" 100;
            example_stored "id-1" "video.pause" 300;
            example_stored "id-2" "quiz.fail" 200;
            example_stored "id-3" "quiz.retry" 200] "u-1" "c-1" 2 2 None
           (map select_history_columns
              [example_stored "id-1" "video.pause" 300;
               example_stored "id-2" "quiz.fail" 200])
           (map select_history_columns
              [example_stored "id-0" "video.play" 100])
           (select_history_columns (example_stored "id-1" "video.pause" 300))
           (select_history_columns (example_stored "id-0" "video.play" 100))).
  - reflexivity.
  - simpl. now left.
  - reflexivity.
  - simpl. now left.
Defined.

(** X12. What is recorded can be read back. After a batch has been
    recorded for a learner, the history of that learner in the course of
    any event of the batch, asked for with a limit that covers the table,
    has a row with the event's type, as sent, and with the status and the
    reason the classifier gives it. *)
Theorem recordActivityEvents_then_history
    (new_Date : nat -> Date) (default_event_id : nat -> string)
    (userId : string) (events : list Input.TelemetryEventInput) (s : Server)
    (event : Input.TelemetryEventInput) (limit : Z) :
  In event events ->
  let s' := recordActivityEvents new_Date default_event_id userId events s in
  Z.of_nat (List.length (learner_activity_events s')) <= limit ->
  exists page r,
    getLearnerHistory (learner_activity_events s') userId
      (Input.courseId event) limit None = Some page
    /\ In r page
    /\ StatusRow.userId r = userId
    /\ StatusRow.courseId r = Input.courseId event
    /\ StatusRow.eventType r = Input.eventType event
    /\ StatusRow.derivedStatus r
       = derivedStatus (classifyEvent (Input.eventType event)
                          (Input.payload event))
    /\ StatusRow.statusReason r
       = statusReason (classifyEvent (Input.eventType event)
                         (Input.payload event)).
Proof.
  intros Hin. cbv zeta. intros Hlimit.
  assert (Hrow : exists row,
             In row (learner_activity_events
                       (recordActivityEvents new_Date default_event_id userId
                          events s))
             /\ row_of_event userId event row).
  { rewrite recordActivityEvents_unfold. simpl.
    destruct (createMany_appends default_event_id
                (fst (build_rows new_Date userId events (clock_reads s)))
                (learner_activity_events s)) as [stored [E Hids]].
    rewrite E.
    destruct (Forall2_In_left _ _ _ _
                (build_rows_fields new_Date userId events (clock_reads s)) Hin)
      as [built [Hb Hrow]].
    destruct (Forall2_In_left _ _ _ _ Hids Hb) as [kept [Hk [id ->]]].
    exists (with_event_id id built). split.
    - apply in_or_app. now right.
    - now apply row_of_event_with_event_id. }
  destruct Hrow as [row [Hrow [Hu [Hc [_ [_ [Ht [_ [Hst Hre]]]]]]]]].
  rewrite history_rows by lia.
  eexists. exists (select_history_columns row).
  split; [reflexivity|]. split.
  - apply in_map. rewrite firstn_all2.
    + apply sort_In. apply filter_In. split; [exact Hrow|].
      unfold history_where. rewrite Hu, Hc, !String.eqb_refl. reflexivity.
    + unfold order_by_created_at_desc.
      rewrite <- (Permutation_length (sort_perm _ _)).
      pose proof (filter_length_le
                    (history_where userId (Input.courseId event) None)
                    (learner_activity_events
                       (recordActivityEvents new_Date default_event_id userId
                          events s))).
      lia.
  - simpl. auto.
Qed.

Lemma recordActivityEvents_then_history_witness :
  exists page r,
    getLearnerHistory
      (learner_activity_events
         (recordActivityEvents (example_clock 500) example_event_id "u-1"
            [example_input "Video.Pause" None] empty_server))
      "u-1" "c-1" 40 None = Some page
    /\ In r page
    /\ StatusRow.eventType r = "Video.Pause"
    /\ StatusRow.derivedStatus r = Some "attention_drift".
Proof.
  destruct (recordActivityEvents_then_history (example_clock 500)
              example_event_id "u-1" [example_input "Video.Pause" None]
              empty_server (example_input "Video.Pause" None) 40)
    as [page [r [Hp [Hr [_ [_ [Ht [Hs _]]]]]]]].
  - simpl. now left.
  - simpl. lia.
  - exists page, r. repeat split; assumption.
Defined.

(* ===================================================================== *)
(** * More properties of the event buffer *)
(* ===================================================================== *)

Module BufferProperties.
Import Telemetry Observed.

Section Facts.
Variable isBrowser : bool.
Variable now_iso : nat -> string.


Lemma stamp_all_occurredAt (batch : list TelemetryEvent) (reads : nat) :
  Forall (fun event => occurredAt event <> None)
    (fst (stamp_all now_iso batch reads)).
Proof.
  pose proof (TelemetryFacts.stamp_all_stamped now_iso batch reads) as H.
  induction H as [|queued sent batch sents Hq _ IH]; constructor; tauto.
Qed.

(** The two things [flushBuffer] can do. *)
Lemma flushBuffer_cases (s : State) :
  (flushBuffer now_iso s = s
   /\ (token_set (currentToken s) = false \/ buffer s = []))
  \/ (exists token,
        currentToken s = Some token /\ token <> "" /\ buffer s <> []
        /\ flushBuffer now_iso s
           = {| currentToken := currentToken s;
                buffer := [];
                flushTimer := flushTimer s;
                requests :=
                  (requests s ++
                   [{| events :=
                         fst (stamp_all now_iso (buffer s) (clock_reads s));
                       authorization := "Bearer " ++ token |}])%list;
                clock_reads :=
                  snd (stamp_all now_iso (buffer s) (clock_reads s));
                timeouts_set := timeouts_set s |}).
Proof.
  destruct (currentToken s) as [token|] eqn:Et.
  - destruct (truthy token) eqn:Ht.
    + assert (Hcase : buffer s = [] \/ buffer s <> [])
        by (destruct (buffer s); [now left|right; discriminate]).
      destruct Hcase as [Eb|Hb].
      * left. split; [|now right].
        unfold flushBuffer. rewrite Et, Ht, Eb. reflexivity.
      * right. exists token. apply truthy_iff in Ht.
        repeat split; auto.
        rewrite (TelemetryFacts.flushBuffer_sends now_iso s token) by auto.
        now rewrite Et.
    + left. split; [|left; exact Ht].
      unfold flushBuffer. rewrite Et, Ht. reflexivity.
  - left. split; [|now left]. unfold flushBuffer. now rewrite Et.
Qed.

Lemma well_formed_flush (s : State) (token : string) :
  token <> "" -> buffer s <> [] ->
  (List.length (buffer s) <= MAX_BUFFER_SIZE)%nat ->
  well_formed_request
    {| events := fst (stamp_all now_iso (buffer s) (clock_reads s));
       authorization := "Bearer " ++ token |}.
Proof.
  intros Ht Hb Hlen. unfold well_formed_request. simpl.
  rewrite TelemetryFacts.stamp_all_length. repeat split.
  - destruct (buffer s); [contradiction|simpl; lia].
  - exact Hlen.
  - apply stamp_all_occurredAt.
  - now exists token.
Qed.

Lemma timer_invariant_flushBuffer (s : State) :
  (List.length (buffer s) <= MAX_BUFFER_SIZE)%nat ->
  (forall pending, flushTimer s = Some pending ->
     pending = (timeouts_set s, BUFFER_FLUSH_INTERVAL_MS)
     /\ token_set (currentToken s) = true /\ isBrowser = true) ->
  Forall well_formed_request (requests s) ->
  (token_set (currentToken s) = true \/ buffer s = []) ->
  timer_invariant isBrowser (flushBuffer now_iso s)
  /\ buffer (flushBuffer now_iso s) = [].
Proof.
  intros Hlen Htimer Hreq Hguard.
  destruct (flushBuffer_cases s) as [[E Hwhy]|[token [Et [Hne [Hb E]]]]];
    rewrite E.
  - assert (Hempty : buffer s = []).
    { destruct Hwhy as [Hf|Hb]; [|exact Hb].
      destruct Hguard as [Ht|Hb]; [congruence|exact Hb]. }
    split; [|exact Hempty].
    unfold timer_invariant. rewrite Hempty.
    split; [intros H; now contradiction H|].
    split; [exact Htimer|exact Hreq].
  - split; [|reflexivity]. unfold timer_invariant.
    cbn [buffer flushTimer requests timeouts_set currentToken].
    split; [intros H; now contradiction H|].
    split; [exact Htimer|].
    apply Forall_app. split; [exact Hreq|].
    constructor; [|constructor]. now apply well_formed_flush.
Qed.

Lemma timer_invariant_step (s s' : State) :
  invariant isBrowser s -> timer_invariant isBrowser s ->
  step isBrowser now_iso s s' -> timer_invariant isBrowser s'.
Proof.
  intros [Hq Hlen] Hinv Hstep. pose proof Hinv as [Hpending [Htimer Hreq]].
  destruct Hstep as [token s|event s|s pending Hp].
  - unfold updateTelemetryAccessToken.
    destruct (token_set token) eqn:Et; unfold timer_invariant;
      cbn [buffer flushTimer requests timeouts_set currentToken].
    + split; [exact Hpending|]. split; [|exact Hreq].
      intros pending Hp. destruct (Htimer pending Hp) as [E [_ Hb]].
      now repeat split.
    + split; [intros H; now contradiction H|].
      split; [discriminate|exact Hreq].
  - unfold recordTelemetryEvent.
    destruct (token_set (currentToken s)) eqn:Et; cbn [negb orb];
      [|exact Hinv].
    destruct (negb isBrowser) eqn:Eb; [exact Hinv|].
    apply negb_false_iff in Eb.
    assert (Hlen1 : (List.length (buffer (push event s)) <= MAX_BUFFER_SIZE)%nat).
    { cbn [push buffer]. rewrite length_app. simpl.
      unfold MAX_BUFFER_SIZE in *. lia. }
    destruct (MAX_BUFFER_SIZE <=? List.length (buffer (push event s)))%nat.
    + apply (timer_invariant_flushBuffer (push event s));
        [exact Hlen1| |exact Hreq|left; exact Et].
      intros p Hp. destruct (Htimer p Hp) as [E _]. now repeat split.
    + unfold scheduleFlush. cbn [push flushTimer].
      destruct (flushTimer s) as [pending|] eqn:Ef.
      * unfold timer_invariant.
        cbn [push buffer flushTimer requests timeouts_set currentToken].
        rewrite Ef. split; [discriminate|]. split; [|exact Hreq].
        intros p [= <-]. destruct (Htimer pending eq_refl) as [E _].
        now repeat split.
      * destruct (negb isBrowser) eqn:Eb'.
        { apply negb_true_iff in Eb'. congruence. }
        unfold timer_invariant.
        cbn [push buffer flushTimer requests timeouts_set currentToken].
        split; [discriminate|]. split; [|exact Hreq].
        intros p [= <-]. now repeat split.
  - unfold flush_timer_callback.
    apply timer_invariant_flushBuffer;
      cbn [buffer flushTimer requests timeouts_set currentToken].
    + unfold MAX_BUFFER_SIZE in *. lia.
    + discriminate.
    + exact Hreq.
    + left. now apply (Htimer pending).
Qed.

Lemma reachable_timer_invariant (s : State) :
  reachable isBrowser now_iso s -> timer_invariant isBrowser s.
Proof.
  induction 1 as [|s s' Hreach IH Hstep].
  - unfold timer_invariant. simpl. repeat split; try discriminate.
    + intros H. now contradiction H.
    + constructor.
  - apply (timer_invariant_step s s'); auto.
    now apply (TelemetryFacts.reachable_invariant isBrowser now_iso).
Qed.


Lemma flushBuffer_timeouts_set (s : State) :
  timeouts_set (flushBuffer now_iso s) = timeouts_set s.
Proof.
  destruct (flushBuffer_cases s) as [[-> _]|[token [_ [_ [_ ->]]]]];
    reflexivity.
Qed.

Lemma recordTelemetryEvent_unset (event : TelemetryEvent) (s : State) :
  token_set (currentToken s) = false ->
  recordTelemetryEvent isBrowser now_iso event s = s.
Proof.
  intros Et. unfold recordTelemetryEvent. now rewrite Et.
Qed.

Lemma recordTelemetryEvent_set (event : TelemetryEvent) (s : State) :
  token_set (currentToken s) = true -> isBrowser = true ->
  recordTelemetryEvent isBrowser now_iso event s
  = if (MAX_BUFFER_SIZE <=? List.length (buffer (push event s)))%nat
    then flushBuffer now_iso (push event s)
    else scheduleFlush isBrowser (push event s).
Proof.
  intros Et Eb. unfold recordTelemetryEvent. now rewrite Et, Eb.
Qed.

Lemma reachable_outside_browser (s : State) :
  isBrowser = false -> reachable isBrowser now_iso s ->
  buffer s = [] /\ requests s = [] /\ flushTimer s = None
  /\ clock_reads s = 0%nat /\ timeouts_set s = 0%nat.
Proof.
  intros Eb. induction 1 as [|s s' _ IH Hstep]; [now repeat split|].
  destruct IH as [Hbuf [Hreq [Htimer [Hclock Hset]]]].
  destruct Hstep as [token s|event s|s pending Hp].
  - unfold updateTelemetryAccessToken.
    destruct (token_set token); simpl; now repeat split.
  - unfold recordTelemetryEvent. rewrite Eb.
    rewrite orb_true_r. now repeat split.
  - congruence.
Qed.

End Facts.

(** X13. Every request the module starts is well formed: it carries
    between 1 and 20 events, each with an [occurredAt], under a bearer
    token that is not empty. No request is ever started without a token
    or with an empty batch. *)
Theorem requests_well_formed
    (isBrowser : bool) (now_iso : nat -> string) (s : State) :
  reachable isBrowser now_iso s ->
  Forall well_formed_request (requests s).
Proof.
  intros Hreach.
  now destruct (reachable_timer_invariant isBrowser now_iso s Hreach)
    as [_ [_ H]].
Qed.

Lemma requests_well_formed_witness :
  Forall well_formed_request
    (requests
       (record_all true example_now (repeat (example_event "video.play") 20)
          (updateTelemetryAccessToken (Some "token-1") initial)))
  /\ List.length
       (requests
          (record_all true example_now (repeat (example_event "video.play") 20)
             (updateTelemetryAccessToken (Some "token-1") initial))) = 1%nat.
Proof.
  split; [|reflexivity].
  apply (requests_well_formed true example_now).
  apply TelemetryFacts.reachable_record_all.
  eapply reachable_step; [apply reachable_initial|apply step_token].
Defined.

(** X14. No queued event is left without a timer, and there is one timer
    at most. In every state the module can be in, a queue that is not
    empty has a timeout pending; a pending timeout is the last one set,
    with the delay of 4000 ms, under a token and in a browser; while it is
    pending, recording an event sets no second one. *)
Theorem one_timer_for_the_queue
    (isBrowser : bool) (now_iso : nat -> string) (s : State) :
  reachable isBrowser now_iso s ->
  (buffer s <> [] -> exists pending, flushTimer s = Some pending)
  /\ (forall pending, flushTimer s = Some pending ->
        pending = (timeouts_set s, BUFFER_FLUSH_INTERVAL_MS)
        /\ token_set (currentToken s) = true
        /\ isBrowser = true
        /\ forall event,
             timeouts_set (recordTelemetryEvent isBrowser now_iso event s)
             = timeouts_set s).
Proof.
  intros Hreach.
  destruct (reachable_timer_invariant isBrowser now_iso s Hreach)
    as [Hpending [Htimer _]].
  split.
  - intros Hb. destruct (flushTimer s) as [pending|] eqn:Ef; [eauto|].
    now contradiction (Hpending Hb).
  - intros pending Hp. destruct (Htimer pending Hp) as [E [Et Eb]].
    repeat split; auto. intros event.
    rewrite (recordTelemetryEvent_set isBrowser now_iso event s Et Eb).
    destruct (MAX_BUFFER_SIZE <=? List.length (buffer (push event s)))%nat.
    + now rewrite flushBuffer_timeouts_set.
    + unfold scheduleFlush. cbn [push flushTimer]. now rewrite Hp.
Qed.

Lemma one_timer_for_the_queue_witness :
  let s :=
    record_all true example_now (repeat (example_event "video.play") 3)
      (updateTelemetryAccessToken (Some "token-1") initial) in
  flushTimer s = Some (1%nat, 4000)
  /\ timeouts_set (recordTelemetryEvent true example_now
                     (example_event "quiz.fail") s) = 1%nat.
Proof.
  cbv zeta.
  destruct (one_timer_for_the_queue true example_now
              (record_all true example_now
                 (repeat (example_event "video.play") 3)
                 (updateTelemetryAccessToken (Some "token-1") initial)))
    as [_ Hone].
  - apply TelemetryFacts.reachable_record_all.
    eapply reachable_step; [apply reachable_initial|apply step_token].
  - split; [reflexivity|].
    destruct (Hone (1%nat, 4000) eq_refl) as [_ [_ [_ Hsame]]].
    rewrite Hsame. reflexivity.
Defined.

(** X15. Clearing the token abandons what was queued. After
    [updateTelemetryAccessToken] with [null] or with the empty string the
    queue is empty and no timeout is pending, the requests started so far
    are untouched, and recording events changes nothing until a token is
    set again: they are dropped. *)
Theorem updateTelemetryAccessToken_clears
    (isBrowser : bool) (now_iso : nat -> string) (s : State)
    (token : option string) :
  token_set token = false ->
  let s' := updateTelemetryAccessToken token s in
  buffer s' = [] /\ flushTimer s' = None /\ requests s' = requests s
  /\ (forall batch, record_all isBrowser now_iso batch s' = s')
  /\ flushBuffer now_iso s' = s'.
Proof.
  intros Et. cbv zeta. unfold updateTelemetryAccessToken. rewrite Et.
  repeat split.
  - intros batch. induction batch as [|event rest IH]; simpl; [reflexivity|].
    rewrite recordTelemetryEvent_unset by exact Et. exact IH.
  - destruct (flushBuffer_cases now_iso
                {| currentToken := token; buffer := []; flushTimer := None;
                   requests := requests s; clock_reads := clock_reads s;
                   timeouts_set := timeouts_set s |})
      as [[E _]|[tok [_ [_ [Hb _]]]]]; [exact E|].
    now contradiction Hb.
Qed.

Lemma updateTelemetryAccessToken_clears_witness :
  let s :=
    record_all true example_now (repeat (example_event "video.play") 3)
      (updateTelemetryAccessToken (Some "token-1") initial) in
  List.length (buffer s) = 3%nat
  /\ buffer (updateTelemetryAccessToken (Some "") s) = []
  /\ requests (updateTelemetryAccessToken (Some "") s) = [].
Proof.
  cbv zeta.
  destruct (updateTelemetryAccessToken_clears true example_now
              (record_all true example_now
                 (repeat (example_event "video.play") 3)
                 (updateTelemetryAccessToken (Some "token-1") initial))
              (Some "")) as [Hb [_ [Hr _]]]; [reflexivity|].
  split; [reflexivity|]. split; [exact Hb|]. rewrite Hr. reflexivity.
Defined.



(** X17. Flush by the timer. Recording one event into an empty queue with
    no timeout pending, under a token and in a browser, starts no request:
    it queues the event and sets one timeout of 4000 ms. When that timeout
    fires, exactly one request is started, with exactly that event, its
    [occurredAt] filled in; the queue is empty again and no timeout is
    pending. *)
Theorem flush_on_timer
    (now_iso : nat -> string) (s : State) (event : TelemetryEvent)
    (token : string) :
  currentToken s = Some token -> token <> "" ->
  buffer s = [] -> flushTimer s = None ->
  let s1 := recordTelemetryEvent true now_iso event s in
  let s2 := flush_timer_callback now_iso s1 in
  buffer s1 = [event]
  /\ requests s1 = requests s
  /\ flushTimer s1 = Some (S (timeouts_set s), BUFFER_FLUSH_INTERVAL_MS)
  /\ buffer s2 = []
  /\ flushTimer s2 = None
  /\ requests s2
     = (requests s
        ++ [{| events := [fst (stamp now_iso event (clock_reads s))];
               authorization := "Bearer " ++ token |}])%list.
Proof.
  intros Et Hne Hb Hf. cbv zeta.
  assert (Hset : token_set (currentToken s) = true).
  { rewrite Et. simpl. now apply truthy_iff. }
  assert (E1 : recordTelemetryEvent true now_iso event s
               = {| currentToken := currentToken s;
                    buffer := [event];
                    flushTimer :=
                      Some (S (timeouts_set s), BUFFER_FLUSH_INTERVAL_MS);
                    requests := requests s;
                    clock_reads := clock_reads s;
                    timeouts_set := S (timeouts_set s) |}).
  { rewrite (recordTelemetryEvent_set true now_iso event s Hset eq_refl).
    unfold push, scheduleFlush. cbn [buffer flushTimer]. rewrite Hb, Hf.
    reflexivity. }
  rewrite E1. unfold flush_timer_callback.
  cbn [buffer requests flushTimer timeouts_set clock_reads currentToken].
  rewrite (TelemetryFacts.flushBuffer_sends now_iso _ token);
    cbn [buffer requests flushTimer timeouts_set clock_reads currentToken];
    [|exact Et|exact Hne|discriminate].
  repeat split. simpl.
  now destruct (stamp now_iso event (clock_reads s)).
Qed.

Lemma flush_on_timer_witness :
  let s1 :=
    recordTelemetryEvent true example_now (example_event "notes.open")
      (updateTelemetryAccessToken (Some "token-1") initial) in
  requests s1 = []
  /\ List.length (requests (flush_timer_callback example_now s1)) = 1%nat.
Proof.
  cbv zeta.
  destruct (flush_on_timer example_now
              (updateTelemetryAccessToken (Some "token-1") initial)
              (example_event "notes.open") "token-1")
    as [_ [H1 [_ [_ [_ H2]]]]]; try reflexivity; try discriminate.
  split; [exact H1|]. rewrite H2. reflexivity.
Defined.

(** X18. Outside a browser the module does nothing: whatever is called,
    the queue stays empty, no request is started, no timeout is set and
    the clock is never read. *)
Theorem nothing_outside_browser
    (now_iso : nat -> string) (s : State) :
  reachable false now_iso s ->
  buffer s = [] /\ requests s = [] /\ flushTimer s = None
  /\ clock_reads s = 0%nat /\ timeouts_set s = 0%nat.
Proof. now apply reachable_outside_browser. Qed.

Lemma nothing_outside_browser_witness :
  requests
    (record_all false example_now (repeat (example_event "video.play") 25)
       (updateTelemetryAccessToken (Some "token-1") initial)) = [].
Proof.
  apply (nothing_outside_browser example_now).
  apply TelemetryFacts.reachable_record_all.
  eapply reachable_step; [apply reachable_initial|apply step_token].
Defined.

End BufferProperties.

(* ===================================================================== *)
(** * More properties of the classifier *)
(* ===================================================================== *)

Section RuleTableFacts.

Lemma lower_code_unit_idempotent (c : ascii) :
  lower_code_unit (lower_code_unit c) = lower_code_unit c.
Proof.
  destruct c as [[] [] [] [] [] [] [] []]; reflexivity.
Qed.

Lemma toLowerCase_idempotent (s : string) :
  toLowerCase (toLowerCase s) = toLowerCase s.
Proof.
  induction s as [|c s IH]; simpl; [reflexivity|].
  now rewrite lower_code_unit_idempotent, IH.
Qed.

Lemma prefix_comparable (p q s : string) :
  String.prefix p s = true -> String.prefix q s = true ->
  String.prefix p q = true \/ String.prefix q p = true.
Proof.
  revert p q. induction s as [|c s IH]; intros [|a p] [|b q]; simpl;
    try discriminate; auto.
  destruct (ascii_dec a c) as [->|]; [|discriminate].
  destruct (ascii_dec b c) as [->|]; [|discriminate].
  destruct (ascii_dec c c) as [_|Hne]; [|now contradiction Hne].
  apply IH.
Qed.

Lemma exclusive_sound (p q s : string) :
  exclusive p q = true -> String.prefix p s = true ->
  String.prefix q s = false.
Proof.
  unfold exclusive. intros Hex Hp.
  destruct (String.prefix q s) eqn:Hq; [|reflexivity].
  destruct (prefix_comparable p q s Hp Hq) as [H|H]; rewrite H in Hex;
    [discriminate|].
  rewrite orb_true_r in Hex. discriminate.
Qed.

(** No string starts with a prefix of [ps] and a prefix of [qs] when the
    prefixes of the two lists are exclusive pair by pair. *)
Lemma some_prefix_exclusive (ps qs : list string) (s : string) :
  forallb (fun p => forallb (exclusive p) qs) ps = true ->
  some_prefix ps s = true -> some_prefix qs s = false.
Proof.
  intros Hex Hp. unfold some_prefix in *.
  apply existsb_exists in Hp. destruct Hp as [p [Hin Hp]].
  rewrite forallb_forall in Hex. specialize (Hex p Hin).
  rewrite forallb_forall in Hex.
  destruct (existsb _ qs) eqn:Hq; [|reflexivity].
  apply existsb_exists in Hq. destruct Hq as [q [Hinq Hq]].
  unfold startsWith in *.
  rewrite (exclusive_sound p q s (Hex q Hinq) Hp) in Hq. discriminate.
Qed.

Lemma some_prefix_app (ps qs : list string) (s : string) :
  some_prefix (ps ++ qs) s = some_prefix ps s || some_prefix qs s.
Proof. unfold some_prefix. apply existsb_app. Qed.

(** A string that starts with an engaged prefix and with a prefix of the
    two first groups starts with one of the overriding prefixes. *)
Lemma engaged_overridden (s : string) :
  some_prefix VIDEO_EVENT_PREFIXES s = true ->
  some_prefix (ATTENTION_EVENT_PREFIXES ++ FRICTION_EVENT_PREFIXES) s = true ->
  some_prefix ENGAGED_OVERRIDES s = true.
Proof.
  intros Hv Ha. unfold some_prefix in *.
  apply existsb_exists in Hv. destruct Hv as [v [Hinv Hv]].
  apply existsb_exists in Ha. destruct Ha as [a [Hina Ha]].
  apply existsb_exists. exists a. split; [|exact Ha].
  unfold ENGAGED_OVERRIDES. apply filter_In. split; [exact Hina|].
  unfold some_prefix. apply existsb_exists. exists v. split; [exact Hinv|].
  unfold startsWith in *.
  destruct (prefix_comparable v a s Hv Ha) as [H|H]; [exact H|].
  (* no prefix of the first two groups is a proper prefix of an engaged one *)
  assert (Hnone : forallb
                    (fun a => forallb
                                (fun v => implb (String.prefix a v)
                                            (String.prefix v a))
                                VIDEO_EVENT_PREFIXES)
                    (ATTENTION_EVENT_PREFIXES ++ FRICTION_EVENT_PREFIXES)
                  = true) by reflexivity.
  rewrite forallb_forall in Hnone. specialize (Hnone a Hina).
  rewrite forallb_forall in Hnone. specialize (Hnone v Hinv).
  rewrite H in Hnone. exact Hnone.
Qed.

Lemma overrides_not_engaged (s : string) :
  some_prefix ENGAGED_OVERRIDES s = true ->
  some_prefix (ATTENTION_EVENT_PREFIXES ++ FRICTION_EVENT_PREFIXES) s = true.
Proof.
  unfold some_prefix. intros H. apply existsb_exists in H.
  destruct H as [a [Hin Ha]]. apply existsb_exists. exists a.
  split; [|exact Ha]. unfold ENGAGED_OVERRIDES in Hin.
  now apply filter_In in Hin.
Qed.

End RuleTableFacts.

(** X19. The status of an event depends on its type alone, and not on the
    letter case of the type: the payload has no say, and an event type and
    its lowercase form get the same status. *)
Theorem classifyEvent_status_case_insensitive
    (eventType : string) (payload payload' : option JsonValue) :
  derivedStatus (classifyEvent eventType payload)
  = derivedStatus (classifyEvent (toLowerCase eventType) payload').
Proof.
  unfold classifyEvent. rewrite toLowerCase_idempotent.
  destruct (some_prefix ATTENTION_EVENT_PREFIXES (toLowerCase eventType));
    [reflexivity|].
  destruct (some_prefix FRICTION_EVENT_PREFIXES (toLowerCase eventType));
    [reflexivity|].
  destruct (some_prefix VIDEO_EVENT_PREFIXES (toLowerCase eventType));
    reflexivity.
Qed.

(** X20. The two groups tested first never compete: no event type starts
    with an attention-drift prefix and with a content-friction prefix, so
    every event type that, lowercased, starts with a content-friction
    prefix is classified [content_friction], also when it starts with an
    engaged prefix as [cold_call.submit] and [tutor.response_received]
    do. *)
Theorem classifyEvent_friction
    (eventType : string) (payload : option JsonValue) (prefix : string) :
  In prefix FRICTION_EVENT_PREFIXES ->
  startsWith (toLowerCase eventType) prefix = true ->
  derivedStatus (classifyEvent eventType payload) = Some "content_friction"
  /\ some_prefix ATTENTION_EVENT_PREFIXES (toLowerCase eventType) = false.
Proof.
  intros Hin Hstart.
  pose proof (some_prefix_In _ _ _ Hin Hstart) as Hf.
  assert (Ha : some_prefix ATTENTION_EVENT_PREFIXES (toLowerCase eventType)
               = false).
  { apply (some_prefix_exclusive FRICTION_EVENT_PREFIXES); [reflexivity|exact Hf]. }
  split; [|exact Ha]. unfold classifyEvent. now rewrite Ha, Hf.
Qed.

Lemma classifyEvent_friction_witness :
  derivedStatus (classifyEvent "Tutor.Response_Received" None)
  = Some "content_friction"
  /\ some_prefix VIDEO_EVENT_PREFIXES (toLowerCase "Tutor.Response_Received")
     = true.
Proof.
  split; [|reflexivity].
  apply (classifyEvent_friction "Tutor.Response_Received" None
           "tutor.response_received").
  - simpl. tauto.
  - reflexivity.
Defined.

(** X21. The engaged group loses to four prefixes only. An event type
    that, lowercased, starts with an engaged prefix is classified
    [engaged] unless it starts with [lesson.locked_click],
    [cold_call.star], [cold_call.submit] or [tutor.response_received],
    and then it is not. *)
Theorem classifyEvent_engaged
    (eventType : string) (payload : option JsonValue) :
  ENGAGED_OVERRIDES
  = ["lesson.locked_click"; "cold_call.star"; "cold_call.submit";
     "tutor.response_received"]
  /\ (some_prefix VIDEO_EVENT_PREFIXES (toLowerCase eventType) = true ->
      (derivedStatus (classifyEvent eventType payload) = Some "engaged"
       <-> some_prefix ENGAGED_OVERRIDES (toLowerCase eventType) = false)).
Proof.
  split; [reflexivity|]. intros Hv. unfold classifyEvent. rewrite Hv.
  destruct (some_prefix ENGAGED_OVERRIDES (toLowerCase eventType)) eqn:Ho.
  - apply overrides_not_engaged in Ho. rewrite some_prefix_app in Ho.
    destruct (some_prefix ATTENTION_EVENT_PREFIXES (toLowerCase eventType));
      [cbn [derivedStatus]; split; discriminate|].
    cbn [orb] in Ho. rewrite Ho. cbn [derivedStatus]. split; discriminate.
  - destruct (some_prefix (ATTENTION_EVENT_PREFIXES ++ FRICTION_EVENT_PREFIXES)
                (toLowerCase eventType)) eqn:Ha.
    + rewrite (engaged_overridden _ Hv Ha) in Ho. discriminate.
    + rewrite some_prefix_app in Ha. apply orb_false_iff in Ha.
      destruct Ha as [-> ->]. cbn [derivedStatus]. tauto.
Qed.

Lemma classifyEvent_engaged_witness :
  derivedStatus (classifyEvent "cold_call.loaded" None) = Some "engaged"
  /\ derivedStatus (classifyEvent "cold_call.star" None) <> Some "engaged".
Proof.
  split.
  - apply (proj2 (classifyEvent_engaged "cold_call.loaded" None));
      reflexivity.
  - intros H.
    apply (proj2 (classifyEvent_engaged "cold_call.star" None)) in H;
      [discriminate H|reflexivity].
Defined.

(** X22. No rule of the tables is dead: each prefix of each group is
    already in lowercase, as the match on the lowercased type needs, and
    the event type equal to the prefix gets the status of the prefix's own
    group. *)
Theorem every_prefix_fires (prefix : string) :
  (In prefix ATTENTION_EVENT_PREFIXES ->
   toLowerCase prefix = prefix
   /\ derivedStatus (classifyEvent prefix None) = Some "attention_drift")
  /\ (In prefix FRICTION_EVENT_PREFIXES ->
      toLowerCase prefix = prefix
      /\ derivedStatus (classifyEvent prefix None) = Some "content_friction")
  /\ (In prefix VIDEO_EVENT_PREFIXES ->
      toLowerCase prefix = prefix
      /\ derivedStatus (classifyEvent prefix None) = Some "engaged").
Proof.
  repeat split; simpl in H;
    repeat (destruct H as [<-|H]; [reflexivity|]); contradiction.
Qed.

Lemma every_prefix_fires_witness :
  derivedStatus (classifyEvent "tutor.response" None) = Some "engaged".
Proof.
  apply (proj2 (proj2 (every_prefix_fires "tutor.response"))).
  simpl. tauto.
Defined.

(* ===================================================================== *)
(** * Properties of the dashboard's history list and labels *)
(* ===================================================================== *)

Section DashboardFacts.

(** A list sorted by an order that is antisymmetric on its elements is the
    only sorted arrangement of them. *)
Lemma sorted_arrangement_unique {A : Type} (R : A -> A -> Prop)
    (l l' : list A) :
  (forall a b, In a l -> In b l -> R a b -> R b a -> a = b) ->
  StronglySorted R l -> StronglySorted R l' -> Permutation l l' -> l = l'.
Proof.
  revert l'. induction l as [|x l IH]; intros l' Hanti Hs Hs' Hperm.
  - now apply Permutation_nil in Hperm.
  - destruct l' as [|y l'].
    { apply Permutation_sym, Permutation_nil in Hperm. discriminate. }
    assert (Exy : x = y).
    { assert (Hx : In x (y :: l'))
        by (apply (Permutation_in _ Hperm); now left).
      assert (Hy : In y (x :: l))
        by (apply (Permutation_in _ (Permutation_sym Hperm)); now left).
      destruct Hx as [->|Hx]; [reflexivity|].
      destruct Hy as [->|Hy]; [reflexivity|].
      inversion Hs as [|? ? _ Hall]; subst.
      inversion Hs' as [|? ? _ Hall']; subst.
      rewrite Forall_forall in Hall, Hall'.
      apply Hanti; auto; simpl; auto. }
    subst y. f_equal. apply IH.
    + intros a b Ha Hb. apply Hanti; now right.
    + now inversion Hs.
    + now inversion Hs'.
    + now apply Permutation_cons_inv in Hperm.
Qed.

Lemma newest_first_then_id_desc_antisym (a b : Dashboard.ActivityLearner) :
  Dashboard.newest_first_then_id_desc a b ->
  Dashboard.newest_first_then_id_desc b a ->
  Dashboard.eventId a = Dashboard.eventId b.
Proof.
  unfold Dashboard.newest_first_then_id_desc.
  intros [Hab|[Eab [ida [idb [Ea [Eb Lab]]]]]] [Hba|[Eba [idb' [ida' [Eb' [Ea' Lba]]]]]];
    try lia.
  rewrite Ea, Eb. f_equal.
  rewrite Ea in Ea'. rewrite Eb in Eb'.
  injection Ea' as <-. injection Eb' as <-.
  unfold JsString.lt, String.ltb in *.
  pose proof (String.compare_antisym ida idb) as Hanti.
  destruct (String.compare ida idb) eqn:E1; try discriminate.
  - now apply String.compare_eq_iff.
  - destruct (String.compare idb ida); simpl in Hanti; discriminate.
Qed.

Import Labels.

Lemma has_code_unit_lower (class : ascii -> bool) (s : string) :
  (forall c, class (lower_code_unit c) = class c) ->
  has_code_unit class (toLowerCase s) = has_code_unit class s.
Proof.
  intros Hc. induction s as [|c s IH]; simpl; [reflexivity|].
  now rewrite Hc, IH.
Qed.

Lemma is_white_space_lower (c : ascii) :
  is_white_space (lower_code_unit c) = is_white_space c.
Proof. destruct c as [[] [] [] [] [] [] [] []]; reflexivity. Qed.

Lemma is_paren_lower (c : ascii) :
  is_paren (lower_code_unit c) = is_paren c.
Proof. destruct c as [[] [] [] [] [] [] [] []]; reflexivity. Qed.

Lemma plain_key_lower (s : string) :
  plain_key (toLowerCase s) = plain_key s.
Proof.
  unfold plain_key.
  now rewrite (has_code_unit_lower _ _ is_white_space_lower),
    (has_code_unit_lower _ _ is_paren_lower).
Qed.

Lemma own_key (dictionary : list (string * string)) (key label : string) :
  own dictionary key = Some label -> In key (map fst dictionary).
Proof.
  induction dictionary as [|[k l] rest IH]; simpl; [discriminate|].
  destruct (String.eqb_spec k key) as [->|_]; [now left|].
  intros H. right. now apply IH.
Qed.

(** A key with white space or a parenthesis is in no dictionary of plain
    keys, nor in [Object.prototype]. *)
Lemma member_of_free_text (dictionary : list (string * string))
    (key : string) :
  forallb plain_key (map fst dictionary) = true ->
  plain_key key = false ->
  member dictionary key = Missing.
Proof.
  intros Hplain Hkey. unfold member.
  destruct (own dictionary key) as [label|] eqn:Eo.
  - apply own_key in Eo. rewrite forallb_forall in Hplain.
    rewrite (Hplain key Eo) in Hkey. discriminate.
  - destruct (existsb (String.eqb key) OBJECT_PROTOTYPE_MEMBERS) eqn:Ep;
      [|reflexivity].
    apply existsb_exists in Ep. destruct Ep as [name [Hin E]].
    apply String.eqb_eq in E. subst name.
    assert (Hall : forallb plain_key OBJECT_PROTOTYPE_MEMBERS = true)
      by reflexivity.
    rewrite forallb_forall in Hall. rewrite (Hall key Hin) in Hkey.
    discriminate.
Qed.

Lemma friendlyLabel_free_text (dictionary : list (string * string))
    (source : string) :
  forallb plain_key (map fst dictionary) = true ->
  plain_key source = false ->
  friendlyLabel source dictionary = Text source.
Proof.
  intros Hplain Hsource. unfold friendlyLabel.
  rewrite (member_of_free_text dictionary (toLowerCase source) Hplain)
    by now rewrite plain_key_lower.
  unfold plain_key in Hsource. apply negb_false_iff in Hsource.
  now rewrite Hsource.
Qed.

Lemma has_code_unit_app (class : ascii -> bool) (a b : string) :
  has_code_unit class (a ++ b)
  = has_code_unit class a || has_code_unit class b.
Proof.
  induction a as [|c a IH]; simpl; [reflexivity|].
  now rewrite IH, orb_assoc.
Qed.

Lemma synthesized_not_plain (fallback eventType : string) :
  plain_key (fallback ++ " (" ++ eventType ++ ")") = false.
Proof.
  unfold plain_key. apply negb_false_iff.
  rewrite !has_code_unit_app. simpl.
  rewrite !orb_true_r. reflexivity.
Qed.

Lemma replace_separators_clean (s : string) :
  has_code_unit is_separator (replace_separators s) = false.
Proof.
  induction s as [|c s IH]; simpl; [reflexivity|].
  rewrite IH. destruct (is_separator c) eqn:E; [reflexivity|].
  now rewrite E.
Qed.

Lemma replace_separators_keeps (class : ascii -> bool) (s : string) :
  class " "%char = false ->
  has_code_unit class (replace_separators s) = true ->
  has_code_unit class s = true.
Proof.
  intros Hsp. induction s as [|c s IH]; simpl; [discriminate|].
  destruct (is_separator c).
  - rewrite Hsp. simpl. intros H. rewrite (IH H). apply orb_true_r.
  - intros H. apply orb_true_iff in H. destruct H as [->|H]; [reflexivity|].
    rewrite (IH H). apply orb_true_r.
Qed.

Lemma split_spaces_units (class : ascii -> bool) (s word : string) :
  In word (split_spaces s) -> has_code_unit class word = true ->
  has_code_unit class s = true.
Proof.
  revert word. induction s as [|c s IH]; intros word; simpl.
  - intros [<-|[]]. discriminate.
  - destruct (Ascii.eqb c " "%char).
    + intros [<-|Hin]; [discriminate|].
      intros H. rewrite (IH word Hin H). apply orb_true_r.
    + destruct (split_spaces s) as [|w ws] eqn:Es.
      * intros [<-|[]]. simpl. rewrite orb_false_r. now intros ->.
      * intros [<-|Hin]; simpl.
        -- intros H. apply orb_true_iff in H.
           destruct H as [->|H]; [reflexivity|].
           rewrite (IH w (or_introl eq_refl) H). apply orb_true_r.
        -- intros H. rewrite (IH word (or_intror Hin) H). apply orb_true_r.
Qed.

Lemma upper_code_unit_clean (c : ascii) (upper : string) :
  is_separator c = false -> upper_code_unit c = Some upper ->
  has_code_unit is_separator upper = false.
Proof.
  destruct c as [[] [] [] [] [] [] [] []]; cbv;
    intros Hc Hu; try discriminate; injection Hu as <-; reflexivity.
Qed.

Lemma upper_code_unit_none (c : ascii) :
  upper_code_unit c = None -> capital_above_255 c = true.
Proof.
  destruct c as [[] [] [] [] [] [] [] []]; cbv; intros H;
    try discriminate; reflexivity.
Qed.

Lemma capitalize_all_clean (words capitals : list string) :
  Forall (fun w => has_code_unit is_separator w = false) words ->
  capitalize_all words = Some capitals ->
  Forall (fun w => has_code_unit is_separator w = false) capitals.
Proof.
  revert capitals. induction words as [|word rest IH]; intros capitals Hall;
    simpl.
  - intros [= <-]. constructor.
  - inversion Hall as [|? ? Hw Hrest]; subst.
    destruct (capitalize word) as [w|] eqn:Ec; [|discriminate].
    destruct (capitalize_all rest) as [ws|]; [|discriminate].
    intros [= <-]. constructor; [|now apply IH].
    destruct word as [|c tail]; simpl in Ec.
    + now injection Ec as <-.
    + destruct (upper_code_unit c) as [upper|] eqn:Eu; [|discriminate].
      injection Ec as <-. simpl in Hw. apply orb_false_iff in Hw.
      destruct Hw as [Hc Htail].
      rewrite has_code_unit_app, Htail.
      now rewrite (upper_code_unit_clean c upper Hc Eu).
Qed.

Lemma capitalize_all_none (words : list string) :
  capitalize_all words = None ->
  exists word, In word words /\ has_code_unit capital_above_255 word = true.
Proof.
  induction words as [|word rest IH]; simpl; [discriminate|].
  destruct (capitalize word) as [w|] eqn:Ec.
  - destruct (capitalize_all rest) as [ws|]; [discriminate|].
    intros _. destruct (IH eq_refl) as [w' [Hin Hw']].
    exists w'. split; [now right|exact Hw'].
  - intros _. exists word. split; [now left|].
    destruct word as [|c tail]; simpl in Ec; [discriminate|].
    destruct (upper_code_unit c) eqn:Eu; [discriminate|].
    simpl. now rewrite (upper_code_unit_none c Eu).
Qed.

Lemma concat_clean (words : list string) :
  Forall (fun w => has_code_unit is_separator w = false) words ->
  has_code_unit is_separator (String.concat " " words) = false.
Proof.
  induction 1 as [|w ws Hw _ IH]; simpl; [reflexivity|].
  destruct ws as [|w' ws']; [exact Hw|].
  rewrite has_code_unit_app, Hw. simpl. exact IH.
Qed.

Lemma humanize_clean (source : string) :
  match humanize source with
  | Text label => has_code_unit is_separator label = false
  | NotText => False
  | OutOfAlphabet => has_code_unit capital_above_255 source = true
  end.
Proof.
  unfold humanize.
  destruct (capitalize_all _) as [capitals|] eqn:Ec.
  - apply concat_clean.
    apply (capitalize_all_clean
             (filter truthy (split_spaces (replace_separators source))));
      [|exact Ec].
    apply Forall_forall. intros w Hw. apply filter_In in Hw.
    destruct Hw as [Hw _].
    destruct (has_code_unit is_separator w) eqn:E; [|reflexivity].
    pose proof (split_spaces_units _ _ _ Hw E) as H.
    rewrite replace_separators_clean in H. discriminate.
  - destruct (capitalize_all_none _ Ec) as [w [Hw Hc]].
    apply filter_In in Hw. destruct Hw as [Hw _].
    apply (replace_separators_keeps capital_above_255); [reflexivity|].
    exact (split_spaces_units _ _ _ Hw Hc).
Qed.

End DashboardFacts.

(** X23. The order of the history list on the dashboard does not depend on
    the order in which the server returned the events, ties included: when
    every event carries an id and no two events share one, any
    rearrangement of the events is displayed in the same order. *)
Theorem sortedHistoryEvents_order_independent
    (historyEvents historyEvents' : list Dashboard.ActivityLearner) :
  Permutation historyEvents historyEvents' ->
  Forall Dashboard.has_event_id historyEvents ->
  NoDup (map Dashboard.eventId historyEvents) ->
  Dashboard.sortedHistoryEvents historyEvents
  = Dashboard.sortedHistoryEvents historyEvents'.
Proof.
  intros Hperm Hids Hnd.
  assert (Hids' : Forall Dashboard.has_event_id historyEvents').
  { rewrite Forall_forall in *. intros e He. apply Hids.
    now apply (Permutation_in _ (Permutation_sym Hperm)). }
  apply (sorted_arrangement_unique Dashboard.newest_first_then_id_desc).
  - intros a b Ha Hb Hab Hba.
    apply (NoDup_map_injective Dashboard.eventId historyEvents); auto.
    + exact (proj1 (sort_In Dashboard.compare_history _ _) Ha).
    + exact (proj1 (sort_In Dashboard.compare_history _ _) Hb).
    + now apply newest_first_then_id_desc_antisym.
  - now apply sortedHistoryEvents_sorted.
  - now apply sortedHistoryEvents_sorted.
  - unfold Dashboard.sortedHistoryEvents.
    eapply perm_trans; [apply Permutation_sym, sort_perm|].
    eapply perm_trans; [exact Hperm|apply sort_perm].
Qed.

Lemma sortedHistoryEvents_order_independent_witness :
  Dashboard.sortedHistoryEvents
    [Dashboard.example_event "id-1" 100; Dashboard.example_event "id-2" 100]
  = Dashboard.sortedHistoryEvents
      [Dashboard.example_event "id-2" 100; Dashboard.example_event "id-1" 100].
Proof.
  apply sortedHistoryEvents_order_independent.
  - apply perm_swap.
  - repeat constructor; eexists; (split; [reflexivity|discriminate]).
  - simpl. repeat constructor; simpl; intuition discriminate.
Defined.

(** X24. Free text is shown as it is: a source with white space or a
    parenthesis in it is in neither dictionary, whatever its letter case,
    and [friendlyLabel] returns it unchanged. *)
Theorem friendlyLabel_free_text_verbatim (source : string) :
  Labels.has_code_unit is_white_space source
  || Labels.has_code_unit Labels.is_paren source = true ->
  Labels.friendlyLabel source Labels.EVENT_LABELS = Labels.Text source
  /\ Labels.friendlyLabel source Labels.STATUS_REASON_LABELS
     = Labels.Text source.
Proof.
  intros Hfree.
  assert (Hsource : Labels.plain_key source = false)
    by (unfold Labels.plain_key; now rewrite Hfree).
  split; apply friendlyLabel_free_text; try exact Hsource; reflexivity.
Qed.

Lemma friendlyLabel_free_text_verbatim_witness :
  Labels.friendlyLabel "Paused for 5 minutes" Labels.STATUS_REASON_LABELS
  = Labels.Text "Paused for 5 minutes".
Proof.
  apply (friendlyLabel_free_text_verbatim "Paused for 5 minutes").
  reflexivity.
Defined.

(** X25. The reason the classifier synthesizes reaches the tutor as it was
    written. For an event that matches a group and whose payload gives no
    reason of its own, [formatStatusReason] applied to the classifier's
    [statusReason] returns the fallback phrase of the group followed by
    the event type in parentheses, letter for letter. *)
Theorem formatStatusReason_of_synthesized
    (eventType : string) (payload : option JsonValue) (status : string) :
  derivedStatus (classifyEvent eventType payload) = Some status ->
  (forall possible,
      object_get payload "reason" = Some (JsonString possible) ->
      trim possible = "") ->
  Labels.formatStatusReason (statusReason (classifyEvent eventType payload))
  = Some (Labels.Text (fallback_phrase status ++ " (" ++ eventType ++ ")")).
Proof.
  intros Hstatus Hblank.
  assert (Hreason : statusReason (classifyEvent eventType payload)
                    = Some (fallback_phrase status ++ " (" ++ eventType ++ ")")).
  { assert (Hbuild : forall fallback,
               buildReason eventType payload fallback
               = fallback ++ " (" ++ eventType ++ ")").
    { intros fallback.
      destruct (buildReason_cases eventType payload fallback)
        as [[p [Hget [Hne _]]]|[_ E]]; [|exact E].
      contradiction Hne. now apply Hblank. }
    destruct (classifyEvent_cases eventType payload)
      as [[_ E]|[[_ [_ E]]|[[_ [_ [_ E]]]|[_ [_ [_ E]]]]]];
      rewrite E in *; simpl in Hstatus |- *; try discriminate;
      injection Hstatus as <-; now rewrite Hbuild. }
  rewrite Hreason. unfold Labels.formatStatusReason.
  rewrite (proj2 (truthy_iff _)
             (synthesized_nonempty (fallback_phrase status) eventType)).
  f_equal. apply friendlyLabel_free_text; [reflexivity|].
  apply synthesized_not_plain.
Qed.

Lemma formatStatusReason_of_synthesized_witness :
  Labels.formatStatusReason (statusReason (classifyEvent "Video.Pause" None))
  = Some (Labels.Text "Idle or pause pattern detected (Video.Pause)").
Proof.
  apply (formatStatusReason_of_synthesized "Video.Pause" None
           "attention_drift").
  - reflexivity.
  - intros possible H. discriminate H.
Defined.

(** X26. A source that is in neither the dictionary nor [Object.prototype]
    and has no white space and no parenthesis is turned into words: the
    label has no dot and no underscore left. The one exception is a source
    with a micro sign or a y with diaeresis at the head of a word, whose
    capital is outside the alphabet of these strings. *)
Theorem friendlyLabel_humanized
    (source : string) (dictionary : list (string * string)) :
  Labels.member dictionary (toLowerCase source) = Labels.Missing ->
  Labels.has_code_unit is_white_space source = false ->
  Labels.has_code_unit Labels.is_paren source = false ->
  match Labels.friendlyLabel source dictionary with
  | Labels.Text label =>
      Labels.has_code_unit Labels.is_separator label = false
  | Labels.NotText => False
  | Labels.OutOfAlphabet =>
      Labels.has_code_unit Labels.capital_above_255 source = true
  end.
Proof.
  intros Hm Hws Hp. unfold Labels.friendlyLabel.
  rewrite Hm, Hws, Hp. cbn [orb]. apply humanize_clean.
Qed.

Lemma friendlyLabel_humanized_witness :
  Labels.formatEventLabel "video.seek_forward"
  = Labels.Text "Video Seek Forward"
  /\ Labels.has_code_unit Labels.is_separator "Video Seek Forward" = false.
Proof.
  split; [reflexivity|].
  apply (friendlyLabel_humanized "video.seek_forward" Labels.EVENT_LABELS);
    reflexivity.
Defined.

(* ===================================================================== *)
(** * From ingestion to the course view *)
(* ===================================================================== *)

Section PipelineFacts.

Lemma recorded_row (new_Date : nat -> Date) (default_event_id : nat -> string)
    (userId : string) (events : list Input.TelemetryEventInput) (s : Server)
    (event : Input.TelemetryEventInput) :
  In event events ->
  exists row,
    In row (learner_activity_events
              (recordActivityEvents new_Date default_event_id userId events s))
    /\ row_of_event userId event row.
Proof.
  intros Hin. rewrite recordActivityEvents_unfold. simpl.
  destruct (createMany_appends default_event_id
              (fst (build_rows new_Date userId events (clock_reads s)))
              (learner_activity_events s)) as [stored [E Hids]].
  rewrite E.
  destruct (Forall2_In_left _ _ _ _
              (build_rows_fields new_Date userId events (clock_reads s)) Hin)
    as [built [Hb Hrow]].
  destruct (Forall2_In_left _ _ _ _ Hids Hb) as [kept [Hk [id ->]]].
  exists (with_event_id id built). split.
  - apply in_or_app. now right.
  - now apply row_of_event_with_event_id.
Qed.

Lemma friction_status (eventType : string) (payload : option JsonValue)
    (prefix : string) :
  In prefix FRICTION_EVENT_PREFIXES ->
  startsWith (toLowerCase eventType) prefix = true ->
  derivedStatus (classifyEvent eventType payload) = Some "content_friction".
Proof.
  intros Hin Hstart.
  pose proof (some_prefix_In _ _ _ Hin Hstart) as Hf.
  unfold classifyEvent.
  rewrite (some_prefix_exclusive FRICTION_EVENT_PREFIXES
             ATTENTION_EVENT_PREFIXES _ eq_refl Hf).
  now rewrite Hf.
Qed.

Lemma window_holds_all (uid : string)
    (rows : list Stored.LearnerActivityEvent)
    (row : Stored.LearnerActivityEvent) :
  (List.length (partition_of uid rows) <= WINDOW_SIZE)%nat ->
  In row rows -> Stored.user_id row = uid ->
  In row (ranked_window uid rows).
Proof.
  intros Hlen Hin Hu. unfold ranked_window. rewrite firstn_all2.
  - apply sort_In. unfold partition_of. apply filter_In.
    split; [exact Hin|]. now apply String.eqb_eq.
  - unfold order_by_created_at_desc.
    now rewrite <- (Permutation_length (sort_perm _ _)).
Qed.

End PipelineFacts.

(** X27. Friction that is recorded is friction that is shown. Once a
    batch with an event of a content-friction type has been recorded for a
    learner, and as long as the learner has no more than 20 events in that
    course, the course view has a summary for the learner and its status
    is [content_friction], whatever else the learner did before or
    after. *)
Theorem recorded_friction_is_reported
    (new_Date : nat -> Date) (default_event_id : nat -> string)
    (users : list Users.User) (userId : string)
    (events : list Input.TelemetryEventInput) (s : Server)
    (event : Input.TelemetryEventInput) (prefix : string) :
  In event events ->
  In prefix FRICTION_EVENT_PREFIXES ->
  startsWith (toLowerCase (Input.eventType event)) prefix = true ->
  let table :=
    learner_activity_events
      (recordActivityEvents new_Date default_event_id userId events s) in
  (List.length (partition_of userId (in_course (Input.courseId event) table))
   <= 20)%nat ->
  exists summary,
    In summary (getLatestStatusesForCourse users table (Input.courseId event))
    /\ StatusRow.userId summary = userId
    /\ StatusRow.derivedStatus summary = Some "content_friction".
Proof.
  intros Hin Hp Hstart. cbv zeta. intros Hlen.
  destruct (recorded_row new_Date default_event_id userId events s event Hin)
    as [row [Hrow [Hu [Hc [_ [_ [_ [_ [Hst _]]]]]]]]].
  set (table := learner_activity_events
                  (recordActivityEvents new_Date default_event_id userId
                     events s)) in *.
  set (courseId := Input.courseId event) in *.
  assert (Hcourse : In row (in_course courseId table)).
  { unfold in_course. apply filter_In. split; [exact Hrow|].
    now apply String.eqb_eq. }
  assert (Huser : In userId (map Stored.user_id (in_course courseId table))).
  { rewrite <- Hu. now apply in_map. }
  assert (Hwin : In row (ranked_window userId (in_course courseId table)))
    by now apply window_holds_all.
  destruct (push_summary_best _
              (learner_window_nonempty users table courseId userId Huser))
    as [summary [Hsum [Hs [Hmax _]]]].
  exists summary. split; [|split].
  - apply course_view_In. now exists userId.
  - now destruct (learner_window_userId _ _ _ _ _ Hs) as [e [u [_ [_ [H _]]]]].
  - assert (Hr : exists r, In r (left_join_users users row)).
    { pose proof (left_join_users_nonempty users row) as Hne.
      destruct (left_join_users users row) as [|r rest]; [contradiction|].
      exists r. now left. }
    destruct Hr as [r Hr].
    destruct (left_join_users_userId users row r Hr) as [u Er].
    assert (Hrw : In r (learner_window users table courseId userId)).
    { unfold learner_window. apply in_flat_map. now exists row. }
    assert (Hpr : priority r = 3).
    { apply priority_friction. rewrite Er. simpl. rewrite Hst.
      now apply (friction_status _ _ prefix). }
    pose proof (Hmax r Hrw) as Hle. pose proof (priority_range summary).
    apply priority_friction. lia.
Qed.

Lemma recorded_friction_is_reported_witness :
  exists summary,
    In summary
      (getLatestStatusesForCourse []
         (learner_activity_events
            (recordActivityEvents (example_clock 500) example_event_id "u-1"
               [example_input "video.play" (Some 900);
                example_input "Quiz.Fail" (Some 100)] empty_server))
         "c-1")
    /\ StatusRow.userId summary = "u-1"
    /\ StatusRow.derivedStatus summary = Some "content_friction".
Proof.
  apply (recorded_friction_is_reported (example_clock 500) example_event_id
           [] "u-1"
           [example_input "video.play" (Some 900);
            example_input "Quiz.Fail" (Some 100)] empty_server
           (example_input "Quiz.Fail" (Some 100)) "quiz.fail").
  - simpl. tauto.
  - simpl. tauto.
  - reflexivity.
  - simpl. lia.
Defined.
